(** * Trait scoring engine of the personality test

    Shallow embedding of [app/mbti_test/domain/analyzer.py] and proofs of the
    properties its specification states about it.

    The module scores free-text answers against a weighted keyword
    dictionary, three pairs of regular-expression heuristics and a
    style-based fallback, and resolves the four dimensions EI, SN, TF and JP.

    Conventions of the embedding:
    - a Python [str] holding answer text or a dictionary word is the list of
      its Unicode code points ([len], [in] and [count] work per code point);
      the literals below are the ones stored in the source file, character
      for character, and [py] decodes their UTF-8 bytes;
    - dimension tags and trait letters, which are plain ASCII keys, are Rocq
      strings;
    - a Python [dict] of trait totals is a [gmap string Z], and reading or
      updating a key that is absent raises [KeyError] as Python does;
    - exceptions are values of the error monad [result];
    - the module binds [get_dimension_for_question] and
      [analyze_single_answer] twice; the later binding is the one a caller
      gets, the earlier one is kept in [Module Shadowed]. *)

From Stdlib Require Import ZArith QArith Qround Qabs Qfield Lia.
From Stdlib Require Import Floats.SpecFloat.
From stdpp Require Import gmap strings list.

Local Open Scope string_scope.
Local Open Scope Z_scope.

(** ** Python strings *)

Definition str := list N.

(** UTF-8 decoding of a literal: [cp] is the code point under construction
    and [need] the number of continuation bytes still expected. *)
Fixpoint utf8_decode (cp : N) (need : nat) (bs : list N) : str :=
  match bs with
  | [] => []
  | b :: bs' =>
      match need with
      | O =>
          if (b <? 128)%N then b :: utf8_decode 0 0 bs'
          else if (b <? 224)%N then utf8_decode (b mod 32) 1 bs'
          else if (b <? 240)%N then utf8_decode (b mod 16) 2 bs'
          else utf8_decode (b mod 8) 3 bs'
      | S O => (cp * 64 + b mod 64)%N :: utf8_decode 0 0 bs'
      | S n => utf8_decode (cp * 64 + b mod 64) n bs'
      end
  end.

Definition py (s : string) : str :=
  utf8_decode 0 0 (map Ascii.N_of_ascii (String.list_ascii_of_string s)).

(** [s.startswith(p)] *)
Fixpoint startswith (p s : str) : bool :=
  match p, s with
  | [], _ => true
  | _ :: _, [] => false
  | c :: p', d :: s' => (c =? d)%N && startswith p' s'
  end.

(** [sub in s]: substring containment. *)
Fixpoint str_in (sub s : str) : bool :=
  startswith sub s ||
  match s with
  | [] => false
  | _ :: s' => str_in sub s'
  end.

(** [s.count(sub)] for a non-empty [sub]: occurrences are counted from the
    left and do not overlap; [skip] is the number of characters of the last
    counted occurrence that are still to be stepped over. *)
Fixpoint count_from (skip : nat) (sub s : str) : Z :=
  match s with
  | [] => 0
  | _ :: s' =>
      match skip with
      | S k => count_from k sub s'
      | O =>
          if startswith sub s then 1 + count_from (length sub - 1) sub s'
          else count_from 0 sub s'
      end
  end.

Definition str_count (sub s : str) : Z := count_from 0 sub s.

(** [len(s)] *)
Definition len (s : str) : Z := Z.of_nat (length s).

(** [re.search(pattern, s)] for the patterns of this module, each an
    alternation [a1|a2|...] of literal fragments without metacharacters: the
    search succeeds exactly when some alternative occurs in [s]. *)
Definition re_search (alternatives : list str) (s : str) : bool :=
  existsb (fun a => str_in a s) alternatives.

(** [sum(w in s for w in words)]: a sum of booleans. *)
Definition sum_in (words : list str) (s : str) : Z :=
  foldr Z.add 0 (map (fun w => Z.b2z (str_in w s)) words).

(** [sum(s.count(e) for e in words)] *)
Definition sum_count (words : list str) (s : str) : Z :=
  foldr Z.add 0 (map (fun e => str_count e s) words).

(** The characters of an ASCII string, each as a one-character string
    ([for k in s], [tuple(s)]). *)
Definition chars (s : string) : list string :=
  map (fun c => String c "") (String.list_ascii_of_string s).

(** ** Exceptions *)

Inductive exn := TypeError | ValueError | KeyError.

Inductive result (A : Type) :=
  | Ok (a : A)
  | Raise (e : exn).

Arguments Ok {A} a.
Arguments Raise {A} e.

Definition bind {A B : Type} (r : result A) (k : A -> result B) : result B :=
  match r with
  | Ok a => k a
  | Raise e => Raise e
  end.

Notation "x <- r ;; k" := (bind r (fun x => k))
  (at level 100, r at next level, right associativity).

(** A [for] loop whose body may raise. *)
Fixpoint foldM {A B : Type} (body : B -> A -> result B) (b : B) (l : list A)
    : result B :=
  match l with
  | [] => Ok b
  | x :: l' => b' <- body b x ;; foldM body b' l'
  end.

(** [enumerate(l)] *)
Fixpoint enumerate_from {A : Type} (i : Z) (l : list A) : list (Z * A) :=
  match l with
  | [] => []
  | x :: l' => (i, x) :: enumerate_from (i + 1) l'
  end.

Definition enumerate {A : Type} (l : list A) : list (Z * A) :=
  enumerate_from 0 l.

(** ** Dictionaries *)

(** [d[k]] on a score dictionary. *)
Definition getitem (k : string) (d : gmap string Z) : result Z :=
  match d !! k with
  | Some v => Ok v
  | None => Raise KeyError
  end.

(** [d.get(k, 0)] *)
Definition get0 (d : gmap string Z) (k : string) : Z :=
  match d !! k with
  | Some v => v
  | None => 0
  end.

(** [d[k] += w] *)
Definition incr (k : string) (w : Z) (d : gmap string Z)
    : result (gmap string Z) :=
  match d !! k with
  | Some v => Ok (<[k := v + w]> d)
  | None => Raise KeyError
  end.

(** [{k: 0 for k in keys}] *)
Definition zeros (keys : list string) : gmap string Z :=
  foldl (fun d k => <[k := 0]> d) ∅ keys.

(** Lookup in a literal dictionary kept as an association list in source
    order, which is also the order in which [.items()] yields it. *)
Fixpoint assoc {V : Type} (k : string) (d : list (string * V)) : option V :=
  match d with
  | [] => None
  | (k', v) :: d' => if String.eqb k' k then Some v else assoc k d'
  end.

(** ** The keyword dictionary *)

Definition kw (word : string) (w : Z) : str * Z := (py word, w).

Definition EI_E_keywords : list (str * Z) :=
  [kw "ê°™ì´" 5; kw "ì‚¬ëŒ" 3; kw "ëª¨ì„" 5;
   kw "ë– ë“¤" 3; kw "ë§Œë‚˜" 4; kw "ì¹œêµ¬ë“¤" 5;
   kw "ë‹¤ê°™ì´" 5; kw "ì—¬ëŸ¿ì´" 5; kw "íŒŒí‹°" 4;
   kw "ìˆ ìë¦¬" 4; kw "íšŒì‹" 4; kw "ë²ˆê°œ" 5;
   kw "ë‚˜ê°€" 3; kw "ë°–ì—" 3; kw "ì™¸ì¶œ" 3;
   kw "ì•½ì†" 4; kw "ë§Œë‚¨" 4; kw "ëŒ€í™”" 3;
   kw "ìˆ˜ë‹¤" 5; kw "í†¡" 3; kw "ì „í™”" 3;
   kw "ì—°ë½" 3; kw "ë†€" 4; kw "í•¨ê»˜" 4;
   kw "ìš°ë¦¬" 3; kw "ë‹¤ë“¤" 3; kw "í™œë°œ" 4;
   kw "ì‹œëŒ" 4; kw "ì™ìì§€ê»„" 5; kw "ë– ë“¤ì©" 5].

Definition EI_I_keywords : list (str * Z) :=
  [kw "í˜¼ì" 5; kw "ì¡°ìš©" 4; kw "ì§‘ì—" 5;
   kw "ìƒê°" 3; kw "ê¸°ë¹¨ë ¤" 5; kw "ì´ì–´í°" 4;
   kw "ì§‘ì½•" 5; kw "ë°©ì½•" 5; kw "ì‰¬ê³ " 3;
   kw "ì¶©ì „" 4; kw "íœ´ì‹" 3; kw "í”¼ê³¤" 4;
   kw "ê·€ì°®" 4; kw "ë‚˜ë§Œ" 4; kw "í˜¼ìë§Œ" 5;
   kw "ê³ ìš”" 4; kw "ì¡°ìš©íˆ" 4; kw "ì°¨ë¶„" 4;
   kw "ì€ë‘”" 5; kw "ë°©êµ¬ì„" 5; kw "ì¹¨ëŒ€" 3;
   kw "ì§‘ìˆœì´" 5; kw "ì§‘ëŒì´" 5; kw "ì¸ì‹¸ ì•„ë‹Œ" 5;
   kw "ì¡°ìš©í•œ" 4; kw "ê¹Šì´" 3; kw "ë‚´ë©´" 4;
   kw "ì‚¬ìƒ‰" 4; kw "ëª…ìƒ" 4; kw "ë…ì„œ" 3].

Definition SN_S_keywords : list (str * Z) :=
  [kw "ì‚¬ì‹¤" 5; kw "í˜„ì‹¤" 4; kw "ê²½í—˜" 4;
   kw "ì§ì ‘" 3; kw "êµ¬ì²´ì " 5; kw "íŒ©íŠ¸" 3;
   kw "ì‹¤ì œë¡œ" 4; kw "ë³¸" 3; kw "ë“¤ì€" 3;
   kw "í•´ë´¤" 4; kw "ê²ªì€" 4; kw "ë‹¹ì¥" 4;
   kw "ì§€ê¸ˆ" 3; kw "í˜„ì¬" 3; kw "ì‹¤ì§ˆì " 5;
   kw "ì‹¤ìš©ì " 5; kw "íš¨ìœ¨ì " 4; kw "êµ¬ì²´ì ìœ¼ë¡œ" 5;
   kw "ì •í™•íˆ" 4; kw "í™•ì‹¤íˆ" 4; kw "ë¶„ëª…íˆ" 4;
   kw "ì¦ê±°" 4; kw "ë°ì´í„°" 4; kw "í†µê³„" 4;
   kw "ì‹¤ì „" 4; kw "ì‹¤ìƒí™œ" 4; kw "ì‹¤ë¬´" 4;
   kw "í˜„ì¥" 4; kw "ì‹¤ì²´" 4; kw "ëª…í™•" 4;
   kw "ì„¸ë¶€" 4; kw "ë””í…Œì¼" 4; kw "ëˆˆì— ë³´ì´ëŠ”" 5;
   kw "ë§Œì ¸ë³¸" 4; kw "ê²½í—˜ìƒ" 5; kw "ê³¼ê±°ì—" 3].

Definition SN_N_keywords : list (str * Z) :=
  [kw "ì˜ë¯¸" 5; kw "ìƒìƒ" 5; kw "ë¯¸ë˜" 4;
   kw "ê°€ëŠ¥ì„±" 5; kw "ë§Œì•½ì—" 5; kw "ë¹„ìœ " 3;
   kw "ì¶”ìƒ" 4; kw "ì´ë¡ " 4; kw "ê°œë…" 4;
   kw "ì•„ì´ë””ì–´" 5; kw "ì˜ê°" 5; kw "ì§ê´€" 4;
   kw "ëŠë‚Œ" 3; kw "ë­”ê°€" 3; kw "ì–´ì©Œë©´" 4;
   kw "ë‚˜ì¤‘ì—" 3; kw "ì–¸ì  ê°€" 4; kw "ê²°êµ­" 3;
   kw "ë³¸ì§ˆ" 5; kw "ì‹¬ì¸µ" 4; kw "ê·¼ë³¸" 4;
   kw "ì² í•™" 5; kw "ê¹Šì€" 4; kw "ìˆ¨ì€" 4;
   kw "íŒ¨í„´" 4; kw "ì—°ê²°" 4; kw "ê´€ê³„" 3;
   kw "ìƒì§•" 4; kw "ì€ìœ " 4; kw "ì°½ì˜" 5;
   kw "í˜ì‹ " 5; kw "ë¹„ì „" 5; kw "ê¿ˆ" 4;
   kw "ì´ìƒ" 4; kw "í†µì°°" 5; kw "í•´ì„" 4;
   kw "ì•”ì‹œ" 4; kw "í•¨ì˜" 5; kw "ìƒˆë¡œìš´" 4].

Definition TF_T_keywords : list (str * Z) :=
  [kw "ì´ìœ " 5; kw "ì›ì¸" 5; kw "ë…¼ë¦¬" 5;
   kw "ë¶„ì„" 4; kw "ì™œ" 5; kw "í•´ê²°" 4;
   kw "ë³´í—˜" 5; kw "í•©ë¦¬" 5; kw "íš¨ìœ¨" 4;
   kw "ê°ê´€" 5; kw "íŒë‹¨" 4; kw "í‰ê°€" 4;
   kw "ê¸°ì¤€" 4; kw "ì •í™•" 4; kw "ì‚¬ì‹¤" 3;
   kw "ì¦ëª…" 4; kw "ê·¼ê±°" 5; kw "íƒ€ë‹¹" 5;
   kw "ë…¼ì¦" 5; kw "ê²°ë¡ " 4; kw "ì¶”ë¡ " 4;
   kw "ì¸ê³¼" 5; kw "ì²´ê³„" 4; kw "êµ¬ì¡°" 4;
   kw "ì‹œìŠ¤í…œ" 4; kw "ë°©ë²•" 3; kw "ì „ëµ" 4;
   kw "ê³„íšì " 4; kw "ëƒ‰ì •" 5; kw "ëƒ‰ì² " 5;
   kw "ì´ì„±" 5; kw "ì‹¤ë¦¬" 4; kw "ë“ì‹¤" 5;
   kw "ì†ìµ" 5; kw "ë”°ì ¸" 5; kw "ê³„ì‚°" 4;
   kw "ì–´ë–»ê²Œ" 4; kw "ë°©ì‹" 3; kw "ìˆ˜ë‹¨" 4;
   kw "ì ˆì°¨" 4; kw "ê·œì¹™" 4; kw "ì›ë¦¬" 4;
   kw "ë²•ì¹™" 4; kw "ì†”ì§íˆ" 3; kw "ì–´ì´ì—†" 4;
   kw "í™©ë‹¹" 4; kw "ë­”ë§" 3; kw "ë‹¹ì—°" 4;
   kw "ì•„ë‹ˆì§€" 3; kw "íŒ©í­" 5; kw "ì§ì„¤" 5;
   kw "í½ì´ë‚˜" 4; kw "ì›ƒê¸°" 3; kw "ë§ë„ì•ˆ" 4;
   kw "ëŒ€ì‹ " 3; kw "í•´ì£¼" 3; kw "ê°œì„ " 5;
   kw "ìˆ˜ì •" 4; kw "ìœ¡í•˜ì›ì¹™" 5; kw "ë”°ë¼" 3;
   kw "ë¹„íš¨ìœ¨" 5; kw "ìµœì " 5; kw "ë‹¤ë¥´ì§€ì•Š" 4;
   kw "ì—ë”°ë¼" 3].

Definition TF_F_keywords : list (str * Z) :=
  [kw "ê¸°ë¶„" 5; kw "ë§ˆìŒ" 5; kw "ê³µê°" 5;
   kw "ì„œìš´" 4; kw "ê°ì •" 5; kw "ì†ìƒ" 5;
   kw "ì–´ë–¡í•´" 5; kw "ëŠë‚Œ" 4; kw "ê°ì„±" 5;
   kw "ì •ì„œ" 4; kw "ìœ„ë¡œ" 5; kw "íë§" 5;
   kw "ë”°ëœ»" 4; kw "ë°°ë ¤" 5; kw "ì¡´ì¤‘" 4;
   kw "ì´í•´" 4; kw "ê³ ë¯¼" 4; kw "ê±±ì •" 4;
   kw "ë¶ˆì•ˆ" 4; kw "ìŠ¬í””" 4; kw "ê¸°ì¨" 3;
   kw "í–‰ë³µ" 3; kw "ì‚¬ë‘" 4; kw "ì¢‹ì•„" 3;
   kw "ì‹«ì–´" 3; kw "í™”ë‚˜" 4; kw "ì§œì¦" 4;
   kw "ë‹µë‹µ" 4; kw "ì–µìš¸" 5; kw "ë¯¸ì•ˆ" 4;
   kw "ê³ ë§ˆ" 4; kw "ê°ë™" 5; kw "ëˆˆë¬¼" 5;
   kw "ìš¸" 4; kw "ì•„í””" 4; kw "ìƒì²˜" 5;
   kw "ì¹˜ìœ " 5; kw "ë§ˆìŒì´" 5; kw "ê°€ìŠ´" 4;
   kw "ì‹¬ì •" 5; kw "ê°ì •ì " 5; kw "ì¸ê°„ì " 5;
   kw "ë”°ëœ»í•œ" 5; kw "ê³µê°í•´" 5; kw "ìœ„ë¡œí•´" 5;
   kw "í˜ë“¤" 4; kw "ì•ˆì“°ëŸ¬" 5; kw "ë¶ˆìŒ" 4;
   kw "ì¸¡ì€" 5; kw "ê¸°ë»" 4; kw "ì§„ì‹¬" 4;
   kw "ìš°ìš¸" 5; kw "í˜ë‚´" 5; kw "ê´œì°®" 4;
   kw "ì‘ì›" 5; kw "ì°©í•˜" 3].

Definition JP_J_keywords : list (str * Z) :=
  [kw "ê³„íš" 5; kw "ì •ë¦¬" 4; kw "ë¯¸ë¦¬" 5;
   kw "í™•ì •" 4; kw "ë¦¬ìŠ¤íŠ¸" 5; kw "ì˜ˆì•½" 4;
   kw "ìŠ¤ì¼€ì¤„" 5; kw "ì¼ì •" 5; kw "ì²´í¬" 4;
   kw "ì¤€ë¹„" 4; kw "ì‚¬ì „" 4; kw "ë¯¸ë¦¬ë¯¸ë¦¬" 5;
   kw "ì˜ˆì •" 4; kw "ì •í•´" 4; kw "ê²°ì •" 4;
   kw "í™•ì‹¤" 4; kw "ì •í™•" 3; kw "ëª…í™•" 3;
   kw "ì²´ê³„" 4; kw "ìˆœì„œ" 4; kw "ë‹¨ê³„" 4;
   kw "ê·œì¹™" 4; kw "ì›ì¹™" 4; kw "ê¸°ì¤€" 3;
   kw "ì •ëˆ" 4; kw "ì •ë ¬" 4; kw "ë¶„ë¥˜" 4;
   kw "ë§ˆê°" 4; kw "ë°ë“œë¼ì¸" 5; kw "ê¸°í•œ" 4;
   kw "ì‹œê°„ ë§ì¶°" 5; kw "ì•½ì† ì‹œê°„" 5; kw "ì •ì‹œ" 4;
   kw "ì²´í¬ë¦¬ìŠ¤íŠ¸" 5; kw "íˆ¬ë‘" 5; kw "í•  ì¼" 4;
   kw "ì™„ë£Œ" 3; kw "ë§ˆë¬´ë¦¬" 4; kw "ëë‚´" 3;
   kw "ê¹”ë”" 4; kw "ì •í™•íˆ" 4; kw "í‹€ë¦¼ì—†ì´" 4].

Definition JP_P_keywords : list (str * Z) :=
  [kw "ì¦‰í¥" 5; kw "ê·¸ë•Œ" 4; kw "ìœ ì—°" 4;
   kw "ëŒ€ì¶©" 4; kw "ì¼ë‹¨" 5; kw "ìƒí™© ë´ì„œ" 4;
   kw "ë‚˜ì¤‘ì—" 4; kw "ì²œì²œíˆ" 3; kw "ì—¬ìœ " 4;
   kw "ììœ " 4; kw "í¸í•œ" 3; kw "ëŠê¸‹" 4;
   kw "ë§‰" 4; kw "ì•„ë¬´" 3; kw "ë­ë“ " 4;
   kw "ê·¸ëƒ¥" 3; kw "ê·¸ë ‡ê²Œ" 2; kw "ì•Œì•„ì„œ" 4;
   kw "íë¦„" 4; kw "íƒ€ì´ë°" 4; kw "ìˆœê°„" 3;
   kw "ìœµí†µ" 5; kw "ì„ê¸°ì‘ë³€" 5; kw "ì• ë“œë¦½" 5;
   kw "ë³€í™”" 3; kw "ì ì‘" 4; kw "ì¡°ì ˆ" 3;
   kw "ë°”ê¿”" 3; kw "ë‹¤ì‹œ" 2; kw "ë˜" 2;
   kw "ë‚˜ì¤‘" 4; kw "ë¯¸ë£¨" 5; kw "ì¼ë‹¨ì€" 5;
   kw "ê°€ë‹¤ê°€" 4; kw "ë³´ë©´ì„œ" 4; kw "ì§€ê¸ˆì€" 3;
   kw "ë‹¹ì¥" 3; kw "ê¸‰í•˜ê²Œ" 3; kw "ì—¬ìœ ë¡­ê²Œ" 4;
   kw "ë§‰ìƒ" 4; kw "ìƒê°ë‚˜ë©´" 4; kw "ëŒë¦¬ë©´" 4;
   kw "í•˜ê³  ì‹¶ì„ ë•Œ" 5; kw "ê¸°ë¶„ ë‚´í‚¬ ë•Œ" 5].

Definition DICTIONARY : list (string * list (string * list (str * Z))) :=
  [("EI", [("E", EI_E_keywords); ("I", EI_I_keywords)]);
   ("SN", [("S", SN_S_keywords); ("N", SN_N_keywords)]);
   ("TF", [("T", TF_T_keywords); ("F", TF_F_keywords)]);
   ("JP", [("J", JP_J_keywords); ("P", JP_P_keywords)])].

(** ** Marker words of the style corrector and heuristic patterns *)

Definition abstract_words : list str :=
  [py "ê²ƒ"; py "ê±°"; py "ë­”ê°€"; py "ëŠë‚Œ"; py "ê°™ì€"; py "ë“¯"].

Definition concrete_words : list str :=
  [py "ë²ˆ"; py "ê°œ"; py "ëª…"; py "ì‹œ"; py "ë¶„"; py "íšŒ"].

Definition exclamations : list str :=
  [py "!"; py "ã… "; py "ã…œ"; py "ã…"; py "ã…‹"; py "â™¥"; py "â¤"; py "ğŸ˜¢"; py "ğŸ˜­"; py "ğŸ’•"].

Definition decisive_words : list str :=
  [py "í•´ì•¼"; py "í•  ê±°ì•¼"; py "í• ê²Œ"; py "ì˜ˆì •"; py "ë°˜ë“œì‹œ"; py "ê¼­"].

Definition uncertain_words : list str :=
  [py "ì•„ë§ˆ"; py "ê¸€ì„"; py "ëª¨ë¥´ê² "; py "ë  ë“¯"; py "ì¼ë‹¨"; py "ì–´ì©Œë©´"].

Definition pattern_N : list str :=
  [py "ë§Œì•½ì—"; py "~ë¼ë©´"; py "ì–´ì©Œë©´"; py "ì–¸ì  ê°€"; py "ë¯¸ë˜ì—"; py "ê°€ëŠ¥ì„±"; py "ìƒìƒ"].

Definition pattern_S : list str :=
  [py "ì‹¤ì œë¡œ"; py "ê²½í—˜ìƒ"; py "ì§ì ‘"; py "í•´ë´¤"; py "ë³¸ ì "; py "í˜„ì‹¤ì ìœ¼ë¡œ"].

Definition pattern_T : list str :=
  [py "ì™œ ê·¸ëŸ°ì§€"; py "ì´ìœ ê°€ ë­ì•¼"; py "ë…¼ë¦¬ì "; py "í•©ë¦¬ì "; py "ë”°ì ¸ë³´ë©´"].

Definition pattern_F : list str :=
  [py "ê¸°ë¶„ì´"; py "ë§ˆìŒì´"; py "ê°ì •ì "; py "ê³µê°"; py "ìœ„ë¡œ"; py "ì†ìƒ"; py "ì„œìš´"].

Definition pattern_J : list str :=
  [py "ê³„íš"; py "ë¯¸ë¦¬"; py "ìŠ¤ì¼€ì¤„"; py "ì˜ˆì•½"; py "ì •í•´"; py "ì²´í¬ë¦¬ìŠ¤íŠ¸"].

Definition pattern_P : list str :=
  [py "ì¦‰í¥"; py "ì¼ë‹¨"; py "ìƒí™© ë´ì„œ"; py "ê·¸ë•Œ ê°€ì„œ"; py "ë‚˜ì¤‘ì—"; py "ëŒ€ì¶©"].

(** The two words counted, next to [?], as question indicators. *)
Definition how_word : str := py "ì–´ë–»ê²Œ".

Definition why_word : str := py "ì™œ".

(** ** Dimension resolver *)

(** The binding of [get_dimension_for_question] in force (second
    definition): an empty tag once the twelve questions are exhausted. *)
Definition get_dimension_for_question (question_index : Z) : string :=
  if question_index <? 3 then "EI"
  else if question_index <? 6 then "SN"
  else if question_index <? 9 then "TF"
  else if question_index <? 12 then "JP"
  else "".

(** ** Lexicon matcher *)

(** Body of the inner loop, over the keywords of one trait: [if word in
    ans: scores[trait] += w; keyword_matched = True]. The state is the pair
    of the accumulator and the flag [keyword_matched]; [test] is the
    membership test of the answer at hand. *)
Definition match_keyword (test : str -> result bool) (trait : string)
    (st : gmap string Z * bool) (k : str * Z)
    : result (gmap string Z * bool) :=
  let (word, w) := k in
  hit <- test word ;;
  if (hit : bool) then
    scores <- incr trait w (fst st) ;;
    Ok (scores, true)
  else Ok st.

(** The two nested loops over [DICTIONARY[dim].items()] and the keywords of
    each trait. The loops occur four times in the module and the copies
    differ only in the membership test. *)
Definition match_keywords (test : str -> result bool)
    (table : list (string * list (str * Z))) (st : gmap string Z * bool)
    : result (gmap string Z * bool) :=
  foldM (fun st (row : string * list (str * Z)) =>
           let (trait, keywords) := row in
           foldM (match_keyword test trait) st keywords) st table.

(** ** Heuristic augmenter *)

(** One [if re.search(pattern, ans): scores[trait] += w; keyword_matched =
    True]; [search] is [re.search] on the answer at hand. *)
Definition bonus (search : list str -> result bool) (pattern : list str)
    (trait : string) (w : Z) (st : gmap string Z * bool)
    : result (gmap string Z * bool) :=
  hit <- search pattern ;;
  if (hit : bool) then
    scores <- incr trait w (fst st) ;;
    Ok (scores, true)
  else Ok st.

(** The block of three [if dim == ...] tests with two patterns each; it is
    repeated verbatim in [calculate_partial_mbti], [run_analysis] and
    [analyze_single_answer]. *)
Definition heuristics (search : list str -> result bool) (dim : string)
    (st : gmap string Z * bool) : result (gmap string Z * bool) :=
  st <- (if String.eqb dim "SN" then
           st <- bonus search pattern_N "N" 3 st ;;
           bonus search pattern_S "S" 3 st
         else Ok st) ;;
  st <- (if String.eqb dim "TF" then
           st <- bonus search pattern_T "T" 4 st ;;
           bonus search pattern_F "F" 4 st
         else Ok st) ;;
  if String.eqb dim "JP" then
    st <- bonus search pattern_J "J" 3 st ;;
    bonus search pattern_P "P" 3 st
  else Ok st.

(** ** Style corrector *)

Definition apply_style_correction (ans : str) (dim : string)
    (scores : gmap string Z) : result (gmap string Z) :=
  let ans_len := len ans in
  scores <- (if String.eqb dim "EI" then
               if ans_len >? 50 then incr "E" 1 scores
               else if ans_len <? 20 then incr "I" 1 scores
               else Ok scores
             else Ok scores) ;;
  scores <- (if String.eqb dim "SN" then
               let abstract_count := sum_in abstract_words ans in
               scores <- (if abstract_count >=? 2 then incr "N" 1 scores
                          else Ok scores) ;;
               let concrete_count := sum_in concrete_words ans in
               if concrete_count >=? 2 then incr "S" 1 scores
               else Ok scores
             else Ok scores) ;;
  scores <- (if String.eqb dim "TF" then
               let question_indicators :=
                 str_count (py "?") ans + str_count how_word ans
                 + str_count why_word ans in
               scores <- (if question_indicators >=? 2 then incr "T" 1 scores
                          else Ok scores) ;;
               let exclamation_count := sum_count exclamations ans in
               if exclamation_count >=? 3 then incr "F" 2 scores
               else if exclamation_count >=? 1 then incr "F" 1 scores
               else Ok scores
             else Ok scores) ;;
  if String.eqb dim "JP" then
    scores <- (if existsb (fun word => str_in word ans) decisive_words
               then incr "J" 1 scores
               else Ok scores) ;;
    if sum_in uncertain_words ans >=? 1 then incr "P" 1 scores
    else Ok scores
  else Ok scores.

(** ** Per-answer scorer *)

(** The dictionary [{"scores": ..., "side": ..., "score": ...}]. *)
Record analysis := {
  scores : gmap string Z;
  side : string;
  score : Z
}.

(** The binding of [analyze_single_answer] in force (second definition). *)
Definition analyze_single_answer (answer : str) (dimension : string)
    : result analysis :=
  let scores := zeros (chars dimension) in
  let keyword_matched := false in
  st <- (match assoc dimension DICTIONARY with
         | Some table =>
             match_keywords (fun word => Ok (str_in word answer)) table
               (scores, keyword_matched)
         | None => Ok (scores, keyword_matched)
         end) ;;
  st <- heuristics (fun pattern => Ok (re_search pattern answer)) dimension
          st ;;
  scores <- (if negb (snd st)
             then apply_style_correction answer dimension (fst st)
             else Ok (fst st)) ;;
  match chars dimension with
  | [trait1; trait2] =>
      let side :=
        if get0 scores trait1 >=? get0 scores trait2 then trait1 else trait2 in
      Ok {| scores := scores; side := side; score := get0 scores side |}
  | _ => Raise ValueError
  end.

(** The earlier definitions of the two functions, rebound further down the
    module and therefore unreachable by name. *)
Module Shadowed.

Definition get_dimension_for_question (question_index : Z) : string :=
  if question_index <? 3 then "EI"
  else if question_index <? 6 then "SN"
  else if question_index <? 9 then "TF"
  else "JP".

(** [side = t1 if scores[t1] >= scores[t2] else t2] followed by
    [score = max(scores[t1], scores[t2])]. *)
Definition resolve (t1 t2 : string) (scores : gmap string Z)
    : result analysis :=
  a <- getitem t1 scores ;;
  b <- getitem t2 scores ;;
  Ok {| scores := scores;
        side := if a >=? b then t1 else t2;
        score := Z.max a b |}.

Definition analyze_single_answer (answer : str) (dimension : string)
    : result analysis :=
  let scores := zeros (chars "EISNTFJP") in
  scores <- (match assoc dimension DICTIONARY with
             | Some table =>
                 st <- match_keywords (fun word => Ok (str_in word answer))
                         table (scores, false) ;;
                 Ok (fst st)
             | None => Ok scores
             end) ;;
  scores <- apply_style_correction answer dimension scores ;;
  if String.eqb dimension "EI" then resolve "E" "I" scores
  else if String.eqb dimension "SN" then resolve "S" "N" scores
  else if String.eqb dimension "TF" then resolve "T" "F" scores
  else resolve "J" "P" scores.

End Shadowed.

(** ** Session scorer *)

(** An entry of an answer list: text, or the [None] of a missing answer.
    On [None], [isinstance(ans, str)] is false and [word in ans],
    [re.search(p, ans)] and [len(ans)] raise [TypeError]. Behind the
    [isinstance] guards of [calculate_partial_mbti] every object that is not
    a [str] behaves as [None] does; in [run_analysis], which has no guard,
    only [None] itself is covered (a list or a dictionary would pass [in]
    and [len]). *)
Inductive pyobj :=
  | PyStr (s : str)
  | PyNone.

Definition isinstance_str (ans : pyobj) : bool :=
  match ans with
  | PyStr _ => true
  | PyNone => false
  end.

(** [word in ans] on an arbitrary entry. *)
Definition py_in (word : str) (ans : pyobj) : result bool :=
  match ans with
  | PyStr s => Ok (str_in word s)
  | PyNone => Raise TypeError
  end.

(** [re.search(pattern, ans)] on an arbitrary entry. *)
Definition py_search (pattern : list str) (ans : pyobj) : result bool :=
  match ans with
  | PyStr s => Ok (re_search pattern s)
  | PyNone => Raise TypeError
  end.

(** [DICTIONARY[dim]] *)
Definition DICTIONARY_getitem (dim : string)
    : result (list (string * list (str * Z))) :=
  match assoc dim DICTIONARY with
  | Some table => Ok table
  | None => Raise KeyError
  end.

(** [t1 if scores[t1] >= scores[t2] else t2] *)
Definition pick (t1 t2 : string) (scores : gmap string Z) : result string :=
  a <- getitem t1 scores ;;
  b <- getitem t2 scores ;;
  Ok (if a >=? b then t1 else t2).

(** Body of the loop of [calculate_partial_mbti]. *)
Definition calculate_partial_mbti_body (scores : gmap string Z)
    (entry : Z * pyobj) : result (gmap string Z) :=
  let (i, ans) := entry in
  let dim :=
    if i <? 3 then "EI"
    else if i <? 6 then "SN"
    else if i <? 9 then "TF"
    else if i <? 12 then "JP"
    else "" in
  if String.eqb dim "" then Ok scores
  else
    let keyword_matched := false in
    table <- DICTIONARY_getitem dim ;;
    st <- match_keywords
            (fun word => if isinstance_str ans then py_in word ans
                         else Ok false)
            table (scores, keyword_matched) ;;
    st <- (if isinstance_str ans
           then heuristics (fun pattern => py_search pattern ans) dim st
           else Ok st) ;;
    if negb (snd st) && isinstance_str ans then
      match ans with
      | PyStr s => apply_style_correction s dim (fst st)
      | PyNone => Raise TypeError
      end
    else Ok (fst st).

Definition calculate_partial_mbti (answers : list pyobj)
    : result (string * gmap string Z) :=
  let scores := zeros (chars "EISNTFJP") in
  scores <- foldM calculate_partial_mbti_body scores (enumerate answers) ;;
  let partial_mbti := "" in
  let n := Z.of_nat (length answers) in
  partial_mbti <-
    (if negb (bool_decide (answers = [])) && (n >? 0) then
       partial_mbti <- (if n >=? 3 then
                          c <- pick "E" "I" scores ;;
                          Ok (String.append partial_mbti c)
                        else Ok (String.append partial_mbti "X")) ;;
       partial_mbti <- (if n >=? 6 then
                          c <- pick "S" "N" scores ;;
                          Ok (String.append partial_mbti c)
                        else Ok (String.append partial_mbti "X")) ;;
       partial_mbti <- (if n >=? 9 then
                          c <- pick "T" "F" scores ;;
                          Ok (String.append partial_mbti c)
                        else Ok (String.append partial_mbti "X")) ;;
       if n >=? 12 then
         c <- pick "J" "P" scores ;;
         Ok (String.append partial_mbti c)
       else Ok (String.append partial_mbti "X")
     else Ok "XXXX") ;;
  Ok (partial_mbti, scores).

(** ** Confidence *)

(** Rounding of a rational to the nearest integer, ties to even. *)
Definition round_half_even (x : Q) : Z :=
  let f := Qfloor x in
  match Qcompare (x - inject_Z f) (1 # 2) with
  | Lt => f
  | Gt => f + 1
  | Eq => if Z.even f then f else f + 1
  end.

(** [round(x, 1)]: the multiple of one tenth nearest to [x]. *)
Definition round1 (x : Q) : Q := Qmake (round_half_even (x * 10)) 10.

(** The local function [get_conf] of [run_analysis]. Its arguments are
    integers, so [abs(a - b)] and [a + b] are exact; the float operations
    that follow are taken here in exact rational arithmetic ([Binary64]
    below repeats them in IEEE double precision). *)
Definition get_conf (a b : Z) : Q :=
  round1 ((inject_Z (Z.abs (a - b)) / (inject_Z (a + b) + (1 # 10))) * 100)%Q.

(** Body of the loop of [run_analysis]. *)
Definition run_analysis_body (scores : gmap string Z) (entry : Z * pyobj)
    : result (gmap string Z) :=
  let (i, ans) := entry in
  let dim :=
    if i <? 3 then "EI"
    else if i <? 6 then "SN"
    else if i <? 9 then "TF"
    else "JP" in
  let keyword_matched := false in
  table <- DICTIONARY_getitem dim ;;
  st <- match_keywords (fun word => py_in word ans) table
          (scores, keyword_matched) ;;
  st <- heuristics (fun pattern => py_search pattern ans) dim st ;;
  if negb (snd st) then
    match ans with
    | PyStr s => apply_style_correction s dim (fst st)
    | PyNone => Raise TypeError
    end
  else Ok (fst st).

Definition run_analysis (answers : list pyobj)
    : result (string * gmap string Z * gmap string Q) :=
  let scores := zeros (chars "EISNTFJP") in
  scores <- foldM run_analysis_body scores (enumerate answers) ;;
  c1 <- pick "E" "I" scores ;;
  c2 <- pick "S" "N" scores ;;
  c3 <- pick "T" "F" scores ;;
  c4 <- pick "J" "P" scores ;;
  let res_mbti :=
    String.append c1 (String.append c2 (String.append c3 c4)) in
  e <- getitem "E" scores ;;
  i <- getitem "I" scores ;;
  s <- getitem "S" scores ;;
  n <- getitem "N" scores ;;
  t <- getitem "T" scores ;;
  f <- getitem "F" scores ;;
  j <- getitem "J" scores ;;
  p <- getitem "P" scores ;;
  let confidence : gmap string Q :=
    <["JP" := get_conf j p]>
      (<["TF" := get_conf t f]>
         (<["SN" := get_conf s n]>
            (<["EI" := get_conf e i]> ∅))) in
  Ok (res_mbti, scores, confidence).

(** ** The float operations of [get_conf] in IEEE double precision *)

Module Binary64.

Definition prec : Z := 53.
Definition emax : Z := 1024.

(** Conversion of an integer, correctly rounded. *)
Definition of_int (n : Z) : spec_float :=
  binary_normalize prec emax n 0 false.

(** The double written [0.1]. *)
Definition tenth : spec_float :=
  S754_finite false 7205759403792794 (-56).

(** The exact value of a finite double. *)
Definition to_Q (x : spec_float) : option Q :=
  match x with
  | S754_zero _ => Some 0%Q
  | S754_finite s m e =>
      let v := (inject_Z (Z.pos m) * Qpower 2 e)%Q in
      Some (if s then (- v)%Q else v)
  | _ => None
  end.

(** [round((abs(a - b) / (a + b + 0.1)) * 100, 1)] with every float
    operation rounded to nearest-even; the result is the decimal that
    [round] returns, or [None] when the argument of [round] is not
    finite. *)
Definition get_conf (a b : Z) : option Q :=
  let denominator := SFadd prec emax (of_int (a + b)) tenth in
  let quotient := SFdiv prec emax (of_int (Z.abs (a - b))) denominator in
  option_map round1 (to_Q (SFmul prec emax quotient (of_int 100))).

End Binary64.

(** ** Functional reading of the stages

    What each stage adds to the total of a trait, as a function of the
    answer. [present] is the membership test of the answer ([word in ans])
    and [found] its pattern test ([re.search(pattern, ans)]). These are the
    notions in which the properties below are stated; the lemmas of the
    first sections show that the code computes them. *)

(** The four dimensions in label order: tag, first trait, second trait and
    position of the dimension in the four-letter label. *)
Definition dimension_table : list (string * string * string * nat) :=
  [("EI", "E", "I", 0%nat); ("SN", "S", "N", 1%nat);
   ("TF", "T", "F", 2%nat); ("JP", "J", "P", 3%nat)].

(** Number of answers from which the dimension at position [k] is resolved
    in partial mode: 3, 6, 9 and 12. *)
Definition unlock_threshold (k : nat) : Z := 3 * (Z.of_nat k + 1).

(** Summed weight of the keywords of one trait that occur. *)
Definition keyword_weight (present : str -> bool) (keywords : list (str * Z))
    : Z :=
  foldr Z.add 0 (map (fun k => if present (fst k) then snd k else 0) keywords).

(** Number of keywords of one trait that occur. *)
Definition keyword_matches (present : str -> bool)
    (keywords : list (str * Z)) : nat :=
  length (List.filter (fun k => present (fst k)) keywords).

(** Lexicon matcher: weight added to trait [t] and number of matches. *)
Definition lexicon_delta (present : str -> bool)
    (table : list (string * list (str * Z))) (t : string) : Z :=
  foldr Z.add 0
    (map (fun row => if String.eqb (fst row) t
                     then keyword_weight present (snd row) else 0) table).

Definition lexicon_matches (present : str -> bool)
    (table : list (string * list (str * Z))) : nat :=
  foldr Nat.add 0%nat (map (fun row => keyword_matches present (snd row)) table).

(** The six rules of the heuristic augmenter: dimension, trait, pattern and
    bonus. *)
Definition heuristic_rules : list (string * string * list str * Z) :=
  [("SN", "N", pattern_N, 3); ("SN", "S", pattern_S, 3);
   ("TF", "T", pattern_T, 4); ("TF", "F", pattern_F, 4);
   ("JP", "J", pattern_J, 3); ("JP", "P", pattern_P, 3)].

Definition rule_fires (found : list str -> bool) (dim : string)
    (rule : string * string * list str * Z) : bool :=
  let '(d, _, pattern, _) := rule in String.eqb d dim && found pattern.

(** Heuristic augmenter: bonus added to trait [t] and number of rules that
    fire. *)
Definition heuristic_delta (found : list str -> bool) (dim t : string) : Z :=
  foldr Z.add 0
    (map (fun rule => let '(_, tr, _, w) := rule in
                      if rule_fires found dim rule && String.eqb tr t
                      then w else 0) heuristic_rules).

Definition heuristic_matches (found : list str -> bool) (dim : string) : nat :=
  length (List.filter (rule_fires found dim) heuristic_rules).

(** Matches of the lexicon matcher and the heuristic augmenter together for
    an answer in a dimension. *)
Definition match_count (ans : str) (dim : string) : nat :=
  (match assoc dim DICTIONARY with
   | Some table => lexicon_matches (fun w => str_in w ans) table
   | None => 0%nat
   end + heuristic_matches (fun p => re_search p ans) dim)%nat.

(** What the two matching stages add to trait [t]. *)
Definition match_delta (ans : str) (dim t : string) : Z :=
  match assoc dim DICTIONARY with
  | Some table => lexicon_delta (fun w => str_in w ans) table t
  | None => 0
  end + heuristic_delta (fun p => re_search p ans) dim t.

(** What the style corrector adds to trait [t]. *)
Definition style_delta (ans : str) (dim t : string) : Z :=
  if String.eqb dim "EI" then
    if String.eqb t "E" then Z.b2z (len ans >? 50)
    else if String.eqb t "I" then Z.b2z (len ans <? 20)
    else 0
  else if String.eqb dim "SN" then
    if String.eqb t "N" then Z.b2z (sum_in abstract_words ans >=? 2)
    else if String.eqb t "S" then Z.b2z (sum_in concrete_words ans >=? 2)
    else 0
  else if String.eqb dim "TF" then
    if String.eqb t "T" then
      Z.b2z (str_count (py "?") ans + str_count how_word ans
             + str_count why_word ans >=? 2)
    else if String.eqb t "F" then
      if sum_count exclamations ans >=? 3 then 2
      else if sum_count exclamations ans >=? 1 then 1
      else 0
    else 0
  else if String.eqb dim "JP" then
    if String.eqb t "J" then
      Z.b2z (existsb (fun word => str_in word ans) decisive_words)
    else if String.eqb t "P" then Z.b2z (sum_in uncertain_words ans >=? 1)
    else 0
  else 0.

(** What a text answer adds to trait [t] under fallback gating: the two
    matching stages when they match at all, the style corrector otherwise. *)
Definition contribution (ans : str) (dim t : string) : Z :=
  if (match_count ans dim =? 0)%nat then style_delta ans dim t
  else match_delta ans dim t.

(** Adding [delta k] to the total of every key [k] of a score dictionary. *)
Definition bump (delta : string -> Z) (d : gmap string Z) : gmap string Z :=
  map_imap (fun k v => Some (v + delta k)) d.

(** [n] copies of a string, [s * n]. *)
Fixpoint str_repeat (s : str) (n : nat) : str :=
  match n with
  | O => []
  | S n' => (s ++ str_repeat s n')%list
  end.

(** What an entry of an answer list adds to trait [t] when [dim] is the
    dimension of its position: a text answer contributes under fallback
    gating, anything else contributes nothing. *)
Definition entry_delta (dim_of : Z -> string) (entry : Z * pyobj)
    (t : string) : Z :=
  match snd entry with
  | PyStr s => contribution s (dim_of (fst entry)) t
  | PyNone => 0
  end.

Definition session_delta (dim_of : Z -> string) (entries : list (Z * pyobj))
    (t : string) : Z :=
  foldr Z.add 0 (map (fun entry => entry_delta dim_of entry t) entries).

(** A session accumulator holds the eight traits. *)
Definition full (d : gmap string Z) : Prop :=
  forall t, In t (chars "EISNTFJP") -> is_Some (d !! t).

(** The trait of a pair that a resolution step names, and the letter at
    position [k] of a label. *)
Definition winner (t1 t2 : string) (d : gmap string Z) : string :=
  if get0 d t1 >=? get0 d t2 then t1 else t2.

Definition letter (k : nat) (mbti : string) : string :=
  String.substring k 1 mbti.

(** The totals of a session: what its entries add to the zero accumulator. *)
Definition session_scores (dim_of : Z -> string) (answers : list pyobj)
    : gmap string Z :=
  bump (session_delta dim_of (enumerate answers)) (zeros (chars "EISNTFJP")).

(** What the shadowed per-answer scorer adds to trait [t]: the lexicon
    matcher and, unconditionally, the style corrector. *)
Definition shadowed_delta (ans : str) (dim t : string) : Z :=
  match assoc dim DICTIONARY with
  | Some table => lexicon_delta (fun w => str_in w ans) table t
  | None => 0
  end + style_delta ans dim t.

(** [round_half_even] on the fraction [p / q], [0 < q], in integer
    arithmetic. *)
Definition round_half_even_frac (p q : Z) : Z :=
  let f := p / q in
  match 2 * (p - f * q) ?= q with
  | Lt => f
  | Gt => f + 1
  | Eq => if Z.even f then f else f + 1
  end.

(** The totals [0 .. n-1]. *)
Definition totals_below (n : nat) : list Z := map Z.of_nat (seq 0 n).

(** Agreement of the double-precision computation of the confidence with
    the exact one on a pair of totals. *)
Definition binary64_agrees (a b : Z) : bool :=
  match Binary64.get_conf a b with
  | Some q => Qeq_bool q (get_conf a b)
  | None => false
  end.

(** The most the style corrector ever adds to a trait: 2 to F, 1 to any
    other. *)
Definition style_cap (t : string) : Z := if String.eqb t "F" then 2 else 1.

(** Every keyword of the dictionary weighs at least the style cap of its
    trait. *)
Definition weights_cover_style : bool :=
  forallb (fun dimension : string * list (string * list (str * Z)) =>
    forallb (fun row : string * list (str * Z) =>
      forallb (fun k : str * Z => style_cap (fst row) <=? snd k) (snd row))
      (snd dimension)) DICTIONARY.

(** Some character of [w] does not occur in [m]. *)
Definition has_foreign_char (w m : str) : bool :=
  existsb (fun c => negb (existsb (N.eqb c) m)) w.

(** ** Sample inputs *)

(** Twenty-five characters without any keyword, pattern or style marker. *)
Definition neutral_answer : str := py "aaaaaaaaaaaaaaaaaaaaaaaaa".

(** The first keyword of trait I (weight 5), four characters long. *)
Definition first_I_keyword : str := py "í˜¼ì".

(** A keyword of trait N (weight 5) whose first characters are a keyword of
    trait S (weight 3). *)
Definition N_keyword_with_S_prefix : str := py "ë³¸ì§ˆ".

(** ** Bounds on totals *)

(** Summed weights of a keyword list. *)
Definition weights_total (keywords : list (str * Z)) : Z :=
  foldr Z.add 0 (map snd keywords).

(** The most one answer can add to the two traits of a dimension together:
    all keywords of both traits and both heuristic bonuses. *)
Definition dimension_cap (dim : string) : Z :=
  match assoc dim DICTIONARY with
  | Some table =>
      foldr Z.add 0 (map (fun row => weights_total (snd row)) table)
  | None => 0
  end
  + foldr Z.add 0
      (map (fun rule : string * string * list str * Z =>
              let '(d, _, _, w) := rule in
              if String.eqb d dim then w else 0) heuristic_rules).

(** The same for [n] consecutive positions from index [i] on, counting the
    positions that [dim_of] assigns to [dim]. *)
Fixpoint session_cap (dim_of : Z -> string) (dim : string) (i : Z) (n : nat)
    : Z :=
  match n with
  | O => 0
  | S n' =>
      (if String.eqb (dim_of i) dim then dimension_cap dim else 0)
      + session_cap dim_of dim (i + 1) n'
  end.

(** * Chat relay ([app/chat/adapter/input/web/chat_websocket_router.py])

    The endpoint [websocket_endpoint] is embedded as a function from what
    its environment delivers to the sequence of calls it makes on it, in
    order. The environment is: the room that [find_by_id] returns, the
    frames that [receive_text] yields, the identifiers that [uuid.uuid4]
    generates and the user that [manager.disconnect] returns. Calls on the
    environment are taken to return, except [receive_text], which raises
    [WebSocketDisconnect] on the frame [Disconnected], and [json.loads]
    with the two [.get], which raise on the frame [Unparsable].

    The values decoded from JSON are kept abstract: the handler uses them
    only through their truth value and through the test [x in [u1, u2]]. *)

Module ChatWebsocket.

Section Handler.

Variables (value uid id : Type).

(** [bool(v)] *)
Variable truthy : value -> bool.

(** [v is u or v == u], the test behind [in] on a list. *)
Variable same : value -> uid -> bool.

(** The three [{"error": ...}] replies. *)
Inductive error :=
  | RoomNotFound
  | FieldsRequired
  | NotParticipant.

(** Calls on the environment. *)
Inductive event :=
  | Connect
  | DbOpen
  | FindRoom
  | DbClose
  | SendError (e : error)
  | Close
  | Receive
  | Register (user : value)
  | SetChatting (user : value)
  | Save (message_id : id) (sender_id content : value)
  | Broadcast (message_id : id) (sender_id content : value)
  | Disconnect
  | ClearState (user : value).

(** What [receive_text] delivers: a text that parses to an object, with the
    results of [.get("sender_id")] and [.get("content")] ([None] for a
    missing key is a value like any other); a text on which [json.loads] or
    [.get] raises; or the end of the connection. *)
Inductive frame :=
  | Message (sender_id content : value)
  | Unparsable
  | Disconnected.

(** How a run over the given frames ends: the endpoint returned, an
    exception left it, or it is waiting in [receive_text] for a frame
    beyond the given ones. *)
Inductive outcome :=
  | Returned
  | Raised
  | Receiving.

Definition _clear_user_state (user_id : value) : list event :=
  if truthy user_id then [ClearState user_id] else [].

Definition _set_user_chatting (user_id : value) : list event :=
  if truthy user_id then [SetChatting user_id] else [].

(** The [while True] loop inside [try ... except WebSocketDisconnect];
    [generated] is the number of identifiers taken from [uuid4] so far. *)
Fixpoint receive_loop (user1_id user2_id : uid) (uuid4 : nat -> id)
    (disconnected_user_id : value) (connected_user_id : option value)
    (generated : nat) (frames : list frame) : list event * outcome :=
  match frames with
  | [] => ([Receive], Receiving)
  | Disconnected :: _ =>
      (Receive :: Disconnect
         :: (if truthy disconnected_user_id
             then _clear_user_state disconnected_user_id else []),
       Returned)
  | Unparsable :: _ => ([Receive], Raised)
  | Message sender_id content :: frames' =>
      if negb (truthy sender_id) || negb (truthy content) then
        let (trace, out) :=
          receive_loop user1_id user2_id uuid4 disconnected_user_id
            connected_user_id generated frames' in
        (Receive :: SendError FieldsRequired :: trace, out)
      else if negb (same sender_id user1_id || same sender_id user2_id) then
        let (trace, out) :=
          receive_loop user1_id user2_id uuid4 disconnected_user_id
            connected_user_id generated frames' in
        (Receive :: SendError NotParticipant :: trace, out)
      else
        let registration :=
          match connected_user_id with
          | None => Register sender_id :: _set_user_chatting sender_id
          | Some _ => []
          end in
        let connected_user_id :=
          match connected_user_id with
          | None => Some sender_id
          | Some user => Some user
          end in
        let message_id := uuid4 generated in
        let (trace, out) :=
          receive_loop user1_id user2_id uuid4 disconnected_user_id
            connected_user_id (S generated) frames' in
        (((Receive :: registration)
            ++ DbOpen :: Save message_id sender_id content :: DbClose
            :: Broadcast message_id sender_id content :: trace)%list,
         out)
  end.

(** [websocket_endpoint]; [chat_room] is the result of [find_by_id], with
    its two participants when it is a room. *)
Definition websocket_endpoint (chat_room : option (uid * uid))
    (uuid4 : nat -> id) (disconnected_user_id : value) (frames : list frame)
    : list event * outcome :=
  match chat_room with
  | None =>
      ([Connect; DbOpen; FindRoom; SendError RoomNotFound; Close; DbClose],
       Returned)
  | Some (user1_id, user2_id) =>
      let connected_user_id := None in
      let (trace, out) :=
        receive_loop user1_id user2_id uuid4 disconnected_user_id
          connected_user_id 0 frames in
      (Connect :: DbOpen :: FindRoom :: DbClose :: trace, out)
  end.

(** Database sessions in a trace: [opened] tells whether one is open. A
    trace is well-bracketed when no session is opened or awaited on while
    another is open in the loop, none is closed that is not open, and none
    is left open at the end. *)
Fixpoint sessions_closed (opened : bool) (trace : list event) : bool :=
  match trace with
  | [] => negb opened
  | DbOpen :: trace' => negb opened && sessions_closed true trace'
  | DbClose :: trace' => opened && sessions_closed false trace'
  | _ :: trace' => sessions_closed opened trace'
  end.

(** The messages saved, in order. *)
Fixpoint saved (trace : list event) : list (id * value * value) :=
  match trace with
  | [] => []
  | Save message_id sender_id content :: trace' =>
      (message_id, sender_id, content) :: saved trace'
  | _ :: trace' => saved trace'
  end.

(** The messages broadcast, in order. *)
Fixpoint broadcast (trace : list event) : list (id * value * value) :=
  match trace with
  | [] => []
  | Broadcast message_id sender_id content :: trace' =>
      (message_id, sender_id, content) :: broadcast trace'
  | _ :: trace' => broadcast trace'
  end.

(** The users registered with the connection manager, in order. *)
Fixpoint registered (trace : list event) : list value :=
  match trace with
  | [] => []
  | Register user :: trace' => user :: registered trace'
  | _ :: trace' => registered trace'
  end.

(** The users whose match state is set to chatting, in order. *)
Fixpoint chatting (trace : list event) : list value :=
  match trace with
  | [] => []
  | SetChatting user :: trace' => user :: chatting trace'
  | _ :: trace' => chatting trace'
  end.

(** A saved message passed the two checks of the loop. *)
Definition accepted (user1_id user2_id : uid) (m : id * value * value)
    : Prop :=
  truthy (snd (fst m)) = true /\ truthy (snd m) = true
  /\ (same (snd (fst m)) user1_id || same (snd (fst m)) user2_id) = true.

(** The clean-up calls of a trace. *)
Definition is_cleanup (e : event) : bool :=
  match e with
  | Disconnect | ClearState _ => true
  | _ => false
  end.

End Handler.

Arguments Connect {value id}.
Arguments DbOpen {value id}.
Arguments FindRoom {value id}.
Arguments DbClose {value id}.
Arguments SendError {value id} e.
Arguments Close {value id}.
Arguments Receive {value id}.
Arguments Register {value id} user.
Arguments SetChatting {value id} user.
Arguments Save {value id} message_id sender_id content.
Arguments Broadcast {value id} message_id sender_id content.
Arguments Disconnect {value id}.
Arguments ClearState {value id} user.
Arguments Message {value} sender_id content.
Arguments Unparsable {value}.
Arguments Disconnected {value}.
Arguments _clear_user_state {value id} truthy user_id.
Arguments _set_user_chatting {value id} truthy user_id.
Arguments receive_loop {value uid id} truthy same user1_id user2_id uuid4
  disconnected_user_id connected_user_id generated frames.
Arguments websocket_endpoint {value uid id} truthy same chat_room uuid4
  disconnected_user_id frames.
Arguments sessions_closed {value id} opened trace.
Arguments saved {value id} trace.
Arguments broadcast {value id} trace.
Arguments registered {value id} trace.
Arguments chatting {value id} trace.
Arguments accepted {value uid id} truthy same user1_id user2_id m.
Arguments is_cleanup {value id} e.

End ChatWebsocket.

(** * Proofs *)

(** ** Score dictionaries *)

Section Bump.

Implicit Types (d : gmap string Z) (delta : string -> Z) (k : string).

Lemma lookup_bump delta d k :
  bump delta d !! k = (fun v => v + delta k) <$> d !! k.
Proof.
  unfold bump. rewrite map_lookup_imap. by destruct (d !! k).
Qed.

Lemma bump_ext delta delta' d :
  (forall k, delta k = delta' k) -> bump delta d = bump delta' d.
Proof.
  intros H. apply map_eq. intros k. rewrite !lookup_bump. by rewrite H.
Qed.

Lemma bump_zero delta d : (forall k, delta k = 0) -> bump delta d = d.
Proof.
  intros H. apply map_eq. intros k. rewrite lookup_bump, H.
  destruct (d !! k); simpl; [f_equal; lia | done].
Qed.

Lemma bump_bump delta1 delta2 d :
  bump delta2 (bump delta1 d) = bump (fun k => delta1 k + delta2 k) d.
Proof.
  apply map_eq. intros k. rewrite !lookup_bump.
  destruct (d !! k); simpl; [f_equal; lia | done].
Qed.

Lemma bump_is_Some delta d k : is_Some (bump delta d !! k) <-> is_Some (d !! k).
Proof. rewrite lookup_bump. apply fmap_is_Some. Qed.

Lemma get0_bump delta d k :
  is_Some (d !! k) -> get0 (bump delta d) k = get0 d k + delta k.
Proof.
  intros [v Hv]. unfold get0. by rewrite lookup_bump, Hv.
Qed.

Lemma incr_bump k w d :
  is_Some (d !! k) ->
  incr k w d = Ok (bump (fun j => if String.eqb j k then w else 0) d).
Proof.
  intros [v Hv]. unfold incr. rewrite Hv. f_equal.
  apply map_eq. intros j. rewrite lookup_bump.
  destruct (String.eqb_spec j k) as [->|Hne].
  - by rewrite lookup_insert_eq, Hv.
  - rewrite lookup_insert_ne by done.
    destruct (d !! j); simpl; [f_equal; lia | done].
Qed.

Lemma getitem_Some k d v : d !! k = Some v -> getitem k d = Ok v.
Proof. intros H. unfold getitem. by rewrite H. Qed.

End Bump.

(** ** The stages compute their functional reading *)

Section Stages.

Implicit Types (d : gmap string Z) (m : bool).

Lemma match_trait_spec test present trait keywords d m :
  (forall w, test w = Ok (present w)) ->
  is_Some (d !! trait) ->
  foldM (match_keyword test trait) (d, m) keywords =
    Ok (bump (fun j => if String.eqb j trait
                       then keyword_weight present keywords else 0) d,
        m || (0 <? keyword_matches present keywords)%nat).
Proof.
  intros Htest. revert d m.
  induction keywords as [|[word w] keywords IH]; intros d m Hd.
  - simpl. rewrite orb_false_r. f_equal. f_equal. symmetry.
    apply bump_zero. intros k. by destruct (String.eqb k trait).
  - unfold foldM; fold (@foldM (str * Z) (gmap string Z * bool)).
    unfold match_keyword at 1. rewrite Htest. cbn [bind].
    unfold keyword_weight, keyword_matches. simpl.
    destruct (present word) eqn:Hw; simpl.
    + rewrite (incr_bump _ _ _ Hd). cbn [bind].
      rewrite IH by (by apply bump_is_Some).
      rewrite bump_bump, orb_true_r. f_equal. f_equal.
      apply bump_ext. intros k. unfold keyword_weight.
      destruct (String.eqb k trait); lia.
    + rewrite IH by done. f_equal.
  Qed.

Lemma match_keywords_spec test present table d m :
  (forall w, test w = Ok (present w)) ->
  (forall row, In row table -> is_Some (d !! fst row)) ->
  match_keywords test table (d, m) =
    Ok (bump (lexicon_delta present table) d,
        m || (0 <? lexicon_matches present table)%nat).
Proof.
  intros Htest. unfold match_keywords. revert d m.
  induction table as [|[trait keywords] table IH]; intros d m Hd.
  - simpl. rewrite orb_false_r. f_equal. f_equal. symmetry.
    by apply bump_zero.
  - unfold foldM at 1; fold (@foldM (string * list (str * Z))
                               (gmap string Z * bool)).
    rewrite (match_trait_spec test present) by
      (try done; apply (Hd (trait, keywords)); by left).
    cbn [bind]. rewrite IH.
    + rewrite bump_bump. f_equal. f_equal.
      * apply bump_ext. intros k. unfold lexicon_delta. simpl.
        rewrite String.eqb_sym. reflexivity.
      * unfold lexicon_matches. simpl. rewrite <- orb_assoc. f_equal.
        destruct (keyword_matches present keywords); simpl; [done|].
        reflexivity.
    + intros row Hrow. apply bump_is_Some, Hd. by right.
Qed.

End Stages.

Local Arguments String.eqb : simpl never.

(** Evaluation of the comparisons between string literals. *)
Ltac eqb_lit :=
  repeat match goal with
    | |- context [String.eqb ?a ?b] =>
        let v := eval vm_compute in (String.eqb a b) in
        match v with
        | true => change (String.eqb a b) with true
        | false => change (String.eqb a b) with false
        end
    end;
  cbn iota.

(** Case analysis on a key compared with literal trait letters. *)
Ltac case_key j :=
  repeat match goal with
    | |- context [String.eqb ?k j] => rewrite (String.eqb_sym k j)
    end;
  repeat match goal with
    | |- context [String.eqb j ?k] => destruct (String.eqb_spec j k); subst
    end;
  eqb_lit; simpl; try lia; try congruence.

(** The four rows of [dimension_table], one goal each. *)
Ltac each_dimension H :=
  unfold dimension_table in H; simpl in H;
  repeat (destruct H as [H|H]; [injection H as <- <- <- <-|]);
  [.. | destruct H].

Section Heuristics.

Variables (search : list str -> result bool) (found : list str -> bool).
Hypothesis Hsearch : forall p, search p = Ok (found p).

Lemma bonus_spec pattern trait w d m :
  is_Some (d !! trait) ->
  bonus search pattern trait w (d, m) =
    Ok (bump (fun j => if found pattern && String.eqb j trait then w else 0) d,
        m || found pattern).
Proof.
  intros Hd. unfold bonus. rewrite Hsearch. cbn [bind fst].
  destruct (found pattern); simpl.
  - rewrite (incr_bump _ _ _ Hd). cbn [bind]. by rewrite orb_true_r.
  - rewrite orb_false_r. f_equal. f_equal. symmetry. by apply bump_zero.
Qed.

Lemma heuristics_spec dim t1 t2 k d m :
  In (dim, t1, t2, k) dimension_table ->
  is_Some (d !! t1) -> is_Some (d !! t2) ->
  heuristics search dim (d, m) =
    Ok (bump (heuristic_delta found dim) d,
        m || (0 <? heuristic_matches found dim)%nat).
Proof.
  intros Hin H1 H2. unfold heuristics.
  each_dimension Hin; eqb_lit; cbn [bind];
    rewrite ?bonus_spec by (by rewrite ?bump_is_Some); cbn [bind];
    rewrite ?bonus_spec by (by rewrite ?bump_is_Some); cbn [bind];
    rewrite ?bump_bump; f_equal; f_equal.
  - symmetry. apply bump_zero. intros j. reflexivity.
  - by rewrite orb_false_r.
  - apply bump_ext. intros j.
    unfold heuristic_delta, heuristic_rules, rule_fires. simpl. eqb_lit. simpl.
    destruct (found pattern_N), (found pattern_S); case_key j.
  - unfold heuristic_matches, heuristic_rules, rule_fires. simpl. eqb_lit. simpl.
    destruct (found pattern_N), (found pattern_S), m; reflexivity.
  - apply bump_ext. intros j.
    unfold heuristic_delta, heuristic_rules, rule_fires. simpl. eqb_lit. simpl.
    destruct (found pattern_T), (found pattern_F); case_key j.
  - unfold heuristic_matches, heuristic_rules, rule_fires. simpl. eqb_lit. simpl.
    destruct (found pattern_T), (found pattern_F), m; reflexivity.
  - apply bump_ext. intros j.
    unfold heuristic_delta, heuristic_rules, rule_fires. simpl. eqb_lit. simpl.
    destruct (found pattern_J), (found pattern_P); case_key j.
  - unfold heuristic_matches, heuristic_rules, rule_fires. simpl. eqb_lit. simpl.
    destruct (found pattern_J), (found pattern_P), m; reflexivity.
Qed.

End Heuristics.

(** Closing step of the cases of [apply_style_correction_spec]. *)
Ltac style_case j :=
  rewrite ?incr_bump by (by rewrite ?bump_is_Some); cbn [bind];
  rewrite ?incr_bump by (by rewrite ?bump_is_Some); cbn [bind];
  rewrite ?bump_bump; f_equal;
  (apply bump_ext || (symmetry; apply bump_zero)); intros j;
  unfold style_delta; eqb_lit.

Lemma apply_style_correction_spec ans dim t1 t2 k (d : gmap string Z) :
  In (dim, t1, t2, k) dimension_table ->
  is_Some (d !! t1) -> is_Some (d !! t2) ->
  apply_style_correction ans dim d = Ok (bump (style_delta ans dim) d).
Proof.
  intros Hin H1 H2. unfold apply_style_correction.
  each_dimension Hin; eqb_lit; cbn [bind].
  - destruct (len ans >? 50) eqn:E1, (len ans <? 20) eqn:E2; try lia;
      style_case j; rewrite ?E1, ?E2; case_key j.
  - destruct (sum_in abstract_words ans >=? 2) eqn:E1,
      (sum_in concrete_words ans >=? 2) eqn:E2;
      style_case j; rewrite ?E1, ?E2; case_key j.
  - destruct (str_count (py "?") ans + str_count how_word ans
              + str_count why_word ans >=? 2) eqn:E1,
      (sum_count exclamations ans >=? 3) eqn:E2,
      (sum_count exclamations ans >=? 1) eqn:E3;
      style_case j; rewrite ?E1, ?E2, ?E3; case_key j.
  - destruct (existsb (fun word => str_in word ans) decisive_words) eqn:E1,
      (sum_in uncertain_words ans >=? 1) eqn:E2;
      style_case j; rewrite ?E1, ?E2; case_key j.
Qed.

(** ** Fallback gating of one answer *)

Lemma keyword_weight_no_match present keywords :
  keyword_matches present keywords = 0%nat ->
  keyword_weight present keywords = 0.
Proof.
  unfold keyword_matches, keyword_weight.
  induction keywords as [|[word w] keywords IH]; simpl; [done|].
  destruct (present word); simpl; [done|]. intros H. by rewrite IH.
Qed.

Lemma lexicon_delta_no_match present table t :
  lexicon_matches present table = 0%nat -> lexicon_delta present table t = 0.
Proof.
  unfold lexicon_matches, lexicon_delta.
  induction table as [|[trait keywords] table IH]; simpl; [done|].
  intros H. apply Nat.eq_add_0 in H as [H1 H2].
  rewrite IH by done. rewrite keyword_weight_no_match by done.
  by destruct (String.eqb trait t).
Qed.

Lemma heuristic_delta_no_match found dim t :
  heuristic_matches found dim = 0%nat -> heuristic_delta found dim t = 0.
Proof.
  unfold heuristic_matches, heuristic_delta, heuristic_rules, rule_fires.
  simpl.
  destruct (String.eqb "SN" dim), (String.eqb "TF" dim),
    (String.eqb "JP" dim), (found pattern_N), (found pattern_S),
    (found pattern_T), (found pattern_F), (found pattern_J),
    (found pattern_P); simpl; try discriminate; reflexivity.
Qed.

Lemma DICTIONARY_rows dim t1 t2 k :
  In (dim, t1, t2, k) dimension_table ->
  exists k1 k2, assoc dim DICTIONARY = Some [(t1, k1); (t2, k2)].
Proof. intros Hin. each_dimension Hin; eexists _, _; reflexivity. Qed.

Lemma chars_dimension dim t1 t2 k :
  In (dim, t1, t2, k) dimension_table -> chars dim = [t1; t2] /\ t1 <> t2.
Proof. intros Hin. each_dimension Hin; by split. Qed.

(** The three stages in sequence on one text answer: the matchers run, and
    the style corrector runs only when they left the flag down. *)
Lemma stages_spec test search ans dim t1 t2 k table (d : gmap string Z) :
  In (dim, t1, t2, k) dimension_table ->
  assoc dim DICTIONARY = Some table ->
  (forall w, test w = Ok (str_in w ans)) ->
  (forall p, search p = Ok (re_search p ans)) ->
  is_Some (d !! t1) -> is_Some (d !! t2) ->
  exists st1 st2,
    match_keywords test table (d, false) = Ok st1
    /\ heuristics search dim st1 = Ok st2
    /\ snd st2 = negb (match_count ans dim =? 0)%nat
    /\ (snd st2 = true -> fst st2 = bump (match_delta ans dim) d)
    /\ (snd st2 = false -> fst st2 = d)
    /\ (if negb (snd st2) then apply_style_correction ans dim (fst st2)
        else Ok (fst st2)) = Ok (bump (contribution ans dim) d).
Proof.
  intros Hin Htable Htest Hsearch H1 H2.
  destruct (DICTIONARY_rows _ _ _ _ Hin) as (k1 & k2 & Hrows).
  assert (table = [(t1, k1); (t2, k2)]) as -> by congruence.
  eexists _, _. split.
  { apply (match_keywords_spec _ _ _ _ _ Htest).
    intros row [<-|[<-|[]]]; done. }
  split.
  { apply (heuristics_spec _ _ Hsearch _ _ _ _ _ _ Hin);
      by rewrite bump_is_Some. }
  cbn [fst snd]. rewrite bump_bump.
  set (present := fun w => str_in w ans) in *.
  set (found := fun p => re_search p ans) in *.
  set (lm := lexicon_matches present [(t1, k1); (t2, k2)]).
  set (hm := heuristic_matches found dim).
  assert (Hcount : match_count ans dim = (lm + hm)%nat).
  { unfold match_count. by rewrite Hrows. }
  assert (Hdelta : forall j, match_delta ans dim j =
            lexicon_delta present [(t1, k1); (t2, k2)] j
            + heuristic_delta found dim j).
  { intros j. unfold match_delta. by rewrite Hrows. }
  assert (Hflag : (false || (0 <? lm)%nat || (0 <? hm)%nat)
                  = negb (lm + hm =? 0)%nat).
  { destruct lm, hm; reflexivity. }
  rewrite Hflag, Hcount.
  split; [done|]. split; [|split].
  - intros _. apply bump_ext. intros j. by rewrite Hdelta.
  - intros H0. apply negb_false_iff, Nat.eqb_eq, Nat.eq_add_0 in H0
      as [Hl Hh].
    apply bump_zero. intros j.
    rewrite lexicon_delta_no_match, heuristic_delta_no_match by done. lia.
  - unfold contribution. rewrite Hcount.
    destruct (lm + hm =? 0)%nat eqn:E; cbn [negb].
    + apply Nat.eqb_eq, Nat.eq_add_0 in E as [Hl Hh].
      rewrite (apply_style_correction_spec _ _ _ _ _ _ Hin)
        by (by rewrite bump_is_Some).
      rewrite bump_bump. f_equal. apply bump_ext. intros j.
      rewrite lexicon_delta_no_match, heuristic_delta_no_match by done. lia.
    + f_equal. apply bump_ext. intros j. by rewrite Hdelta.
Qed.

(** ** Per-answer scorer *)

Lemma zeros_pair dim t1 t2 k :
  In (dim, t1, t2, k) dimension_table ->
  zeros [t1; t2] !! t1 = Some 0 /\ zeros [t1; t2] !! t2 = Some 0.
Proof. intros Hin. each_dimension Hin; by split. Qed.

Lemma analyze_single_answer_spec dim t1 t2 k ans :
  In (dim, t1, t2, k) dimension_table ->
  analyze_single_answer ans dim =
    let sc := bump (contribution ans dim) (zeros [t1; t2]) in
    let winner := if get0 sc t1 >=? get0 sc t2 then t1 else t2 in
    Ok {| scores := sc; side := winner; score := get0 sc winner |}.
Proof.
  intros Hin.
  destruct (DICTIONARY_rows _ _ _ _ Hin) as (k1 & k2 & Hrows).
  destruct (chars_dimension _ _ _ _ Hin) as [Hchars _].
  destruct (zeros_pair _ _ _ _ Hin) as [Hz1 Hz2].
  unfold analyze_single_answer. rewrite Hchars, Hrows.
  destruct (stages_spec (fun word => Ok (str_in word ans))
              (fun pattern => Ok (re_search pattern ans)) ans _ _ _ _ _
              (zeros [t1; t2]) Hin Hrows)
    as (st1 & st2 & Ha & Hb & _ & _ & _ & Hc); try done.
  rewrite Ha. cbn [bind]. rewrite Hb. cbn [bind]. rewrite Hc. reflexivity.
Qed.

(** ** Session scorer *)

Lemma full_zeros : full (zeros (chars "EISNTFJP")).
Proof.
  intros t Ht. simpl in Ht.
  repeat (destruct Ht as [<-|Ht]; [by eexists|]). destruct Ht.
Qed.

Lemma full_bump delta d : full d -> full (bump delta d).
Proof. intros H t Ht. apply bump_is_Some, H, Ht. Qed.

Lemma full_dimension dim t1 t2 k d :
  In (dim, t1, t2, k) dimension_table -> full d ->
  is_Some (d !! t1) /\ is_Some (d !! t2).
Proof.
  intros Hin Hd. each_dimension Hin; split; apply Hd; simpl; tauto.
Qed.

Lemma partial_dimension i :
  get_dimension_for_question i = ""
  \/ exists t1 t2 k,
       In (get_dimension_for_question i, t1, t2, k) dimension_table.
Proof.
  unfold get_dimension_for_question, dimension_table.
  destruct (i <? 3); [right; eexists _, _, _; simpl; eauto|].
  destruct (i <? 6); [right; eexists _, _, _; simpl; eauto|].
  destruct (i <? 9); [right; eexists _, _, _; simpl; eauto 6|].
  destruct (i <? 12); [right; eexists _, _, _; simpl; eauto 6|].
  by left.
Qed.

Lemma final_dimension i :
  exists t1 t2 k,
    In (Shadowed.get_dimension_for_question i, t1, t2, k) dimension_table.
Proof.
  unfold Shadowed.get_dimension_for_question, dimension_table.
  destruct (i <? 3); [eexists _, _, _; simpl; eauto|].
  destruct (i <? 6); [eexists _, _, _; simpl; eauto|].
  destruct (i <? 9); eexists _, _, _; simpl; eauto 6.
Qed.

Lemma contribution_no_dimension ans t : contribution ans "" t = 0.
Proof. reflexivity. Qed.

Lemma dimension_nonempty dim t1 t2 k :
  In (dim, t1, t2, k) dimension_table -> String.eqb dim "" = false.
Proof. intros Hin. by each_dimension Hin. Qed.

Lemma lexicon_matches_none table :
  lexicon_matches (fun _ => false) table = 0%nat.
Proof.
  unfold lexicon_matches, keyword_matches.
  induction table as [|[trait keywords] table IH]; simpl; [done|].
  rewrite IH. by induction keywords.
Qed.

Lemma calculate_partial_mbti_body_spec d i ans :
  full d ->
  calculate_partial_mbti_body d (i, ans) =
    Ok (bump (entry_delta get_dimension_for_question (i, ans)) d).
Proof.
  intros Hd. unfold calculate_partial_mbti_body, entry_delta. cbn [fst snd].
  change (if i <? 3 then "EI" else if i <? 6 then "SN"
          else if i <? 9 then "TF" else if i <? 12 then "JP" else "")
    with (get_dimension_for_question i).
  destruct (partial_dimension i) as [->|(t1 & t2 & k & Hin)].
  { simpl. f_equal. symmetry. apply bump_zero. intros j.
    destruct ans; [apply contribution_no_dimension|done]. }
  revert Hin. generalize (get_dimension_for_question i). intros dim Hin.
  rewrite (dimension_nonempty _ _ _ _ Hin).
  destruct (DICTIONARY_rows _ _ _ _ Hin) as (k1 & k2 & Hrows).
  destruct (full_dimension _ _ _ _ _ Hin Hd) as [H1 H2].
  unfold DICTIONARY_getitem. rewrite Hrows. cbn [bind].
  destruct ans as [s|].
  - destruct (stages_spec
                (fun word => if isinstance_str (PyStr s)
                             then py_in word (PyStr s) else Ok false)
                (fun pattern => py_search pattern (PyStr s)) s _ _ _ _ _
                d Hin Hrows)
      as (st1 & st2 & Ha & Hb & _ & _ & _ & Hc); try done.
    rewrite Ha. cbn [bind isinstance_str]. rewrite Hb. cbn [bind].
    rewrite andb_true_r. exact Hc.
  - erewrite (match_keywords_spec _ (fun _ => false)); [|done|].
    + cbn [bind isinstance_str fst snd]. rewrite andb_false_r. f_equal.
      apply bump_ext. intros j.
      apply lexicon_delta_no_match, lexicon_matches_none.
    + intros row [<-|[<-|[]]]; done.
Qed.

Lemma run_analysis_body_text d i s :
  full d ->
  run_analysis_body d (i, PyStr s) =
    Ok (bump (contribution s (Shadowed.get_dimension_for_question i)) d).
Proof.
  intros Hd. unfold run_analysis_body.
  change (if i <? 3 then "EI" else if i <? 6 then "SN"
          else if i <? 9 then "TF" else "JP")
    with (Shadowed.get_dimension_for_question i).
  destruct (final_dimension i) as (t1 & t2 & k & Hin).
  revert Hin. generalize (Shadowed.get_dimension_for_question i).
  intros dim Hin.
  destruct (DICTIONARY_rows _ _ _ _ Hin) as (k1 & k2 & Hrows).
  destruct (full_dimension _ _ _ _ _ Hin Hd) as [H1 H2].
  unfold DICTIONARY_getitem. rewrite Hrows. cbn [bind].
  destruct (stages_spec (fun word => py_in word (PyStr s))
              (fun pattern => py_search pattern (PyStr s)) s _ _ _ _ _
              d Hin Hrows)
    as (st1 & st2 & Ha & Hb & _ & _ & _ & Hc); try done.
  rewrite Ha. cbn [bind]. rewrite Hb. cbn [bind]. exact Hc.
Qed.

(** A non-text entry makes the very first membership test of
    [run_analysis] raise. *)
Lemma run_analysis_body_non_text d i :
  run_analysis_body d (i, PyNone) = Raise TypeError.
Proof.
  unfold run_analysis_body.
  change (if i <? 3 then "EI" else if i <? 6 then "SN"
          else if i <? 9 then "TF" else "JP")
    with (Shadowed.get_dimension_for_question i).
  destruct (final_dimension i) as (t1 & t2 & k & Hin).
  revert Hin. generalize (Shadowed.get_dimension_for_question i).
  intros dim Hin. each_dimension Hin; reflexivity.
Qed.

Lemma partial_loop_spec entries d :
  full d ->
  foldM calculate_partial_mbti_body d entries =
    Ok (bump (session_delta get_dimension_for_question entries) d).
Proof.
  revert d. induction entries as [|[i ans] entries IH]; intros d Hd.
  - simpl. f_equal. symmetry. by apply bump_zero.
  - cbn [foldM]. rewrite calculate_partial_mbti_body_spec by done.
    cbn [bind]. rewrite IH by (by apply full_bump).
    rewrite bump_bump. reflexivity.
Qed.

Lemma final_loop_text texts i d :
  full d ->
  foldM run_analysis_body d (enumerate_from i (map PyStr texts)) =
    Ok (bump (session_delta Shadowed.get_dimension_for_question
                (enumerate_from i (map PyStr texts))) d).
Proof.
  revert i d. induction texts as [|s texts IH]; intros i d Hd.
  - simpl. f_equal. symmetry. by apply bump_zero.
  - cbn [map enumerate_from foldM].
    rewrite run_analysis_body_text by done.
    cbn [bind]. rewrite IH by (by apply full_bump).
    rewrite bump_bump. reflexivity.
Qed.

Lemma final_loop_non_text answers i d :
  full d -> In PyNone answers ->
  foldM run_analysis_body d (enumerate_from i answers) = Raise TypeError.
Proof.
  revert i d. induction answers as [|ans answers IH]; intros i d Hd Hin.
  - destruct Hin.
  - cbn [enumerate_from foldM]. destruct ans as [s|].
    + rewrite run_analysis_body_text by done. cbn [bind].
      apply IH; [by apply full_bump|].
      by destruct Hin as [Hin|Hin].
    + by rewrite run_analysis_body_non_text.
Qed.

Lemma pick_spec t1 t2 (d : gmap string Z) :
  is_Some (d !! t1) -> is_Some (d !! t2) -> pick t1 t2 d = Ok (winner t1 t2 d).
Proof.
  intros [a Ha] [b Hb]. unfold pick, getitem, winner, get0.
  by rewrite Ha, Hb.
Qed.

Lemma getitem_get0 t (d : gmap string Z) :
  is_Some (d !! t) -> getitem t d = Ok (get0 d t).
Proof. intros [a Ha]. unfold getitem, get0. by rewrite Ha. Qed.

Lemma full_session_scores dim_of answers :
  full (session_scores dim_of answers).
Proof. apply full_bump, full_zeros. Qed.

Lemma full_key t d : In t (chars "EISNTFJP") -> full d -> is_Some (d !! t).
Proof. intros Ht Hd. by apply Hd. Qed.

(** Discharges the presence of a literal trait key in a session
    accumulator. *)
Ltac key_present :=
  match goal with
  | |- is_Some (_ !! _) =>
      apply full_key; [simpl; tauto | apply full_session_scores]
  end.

Lemma calculate_partial_mbti_spec answers :
  let sc := session_scores get_dimension_for_question answers in
  let n := Z.of_nat (length answers) in
  let c t1 t2 threshold :=
    if threshold <=? n then winner t1 t2 sc else "X" in
  calculate_partial_mbti answers =
    Ok (String.append (c "E" "I" 3)
          (String.append (c "S" "N" 6)
             (String.append (c "T" "F" 9) (c "J" "P" 12))), sc).
Proof.
  intros sc n c. unfold calculate_partial_mbti.
  rewrite partial_loop_spec by apply full_zeros. cbn [bind].
  fold (session_scores get_dimension_for_question answers). fold sc. fold n.
  rewrite !pick_spec by (subst sc; key_present).
  subst c. cbv beta. rewrite !Z.geb_leb.
  destruct answers as [|a answers].
  - reflexivity.
  - assert (Hn : (n >? 0) = true)
      by (apply Z.gtb_lt; subst n; simpl length; lia).
    rewrite Hn. cbn [bool_decide negb andb].
    replace (bool_decide (a :: answers = [])) with false
      by (symmetry; by apply bool_decide_eq_false).
    cbn [negb andb].
    destruct (3 <=? n), (6 <=? n), (9 <=? n), (12 <=? n); cbn [bind];
      unfold winner;
      destruct (get0 sc "E" >=? get0 sc "I"), (get0 sc "S" >=? get0 sc "N"),
        (get0 sc "T" >=? get0 sc "F"), (get0 sc "J" >=? get0 sc "P");
      reflexivity.
Qed.

Lemma run_analysis_text texts :
  let sc := session_scores Shadowed.get_dimension_for_question
              (map PyStr texts) in
  run_analysis (map PyStr texts) =
    Ok (String.append (winner "E" "I" sc)
          (String.append (winner "S" "N" sc)
             (String.append (winner "T" "F" sc) (winner "J" "P" sc))),
        sc,
        <["JP" := get_conf (get0 sc "J") (get0 sc "P")]>
          (<["TF" := get_conf (get0 sc "T") (get0 sc "F")]>
             (<["SN" := get_conf (get0 sc "S") (get0 sc "N")]>
                (<["EI" := get_conf (get0 sc "E") (get0 sc "I")]> ∅)))).
Proof.
  intros sc. unfold run_analysis, enumerate.
  rewrite final_loop_text by apply full_zeros. cbn [bind].
  fold (enumerate (map PyStr texts)).
  fold (session_scores Shadowed.get_dimension_for_question (map PyStr texts)).
  fold sc.
  rewrite !pick_spec by (subst sc; key_present). cbn [bind].
  rewrite !getitem_get0 by (subst sc; key_present). reflexivity.
Qed.

Lemma run_analysis_non_text answers :
  In PyNone answers -> run_analysis answers = Raise TypeError.
Proof.
  intros Hin. unfold run_analysis, enumerate.
  by rewrite final_loop_non_text by (done || apply full_zeros).
Qed.

(** * Properties *)

(** ** Dimension resolver *)

(** C3. For a non-negative question index [i] the resolver in force returns
    EI on [0,3), SN on [3,6), TF on [6,9), JP on [9,12) and, from 12 on, the
    empty tag, which names no dimension of the dictionary. *)
Theorem get_dimension_for_question_ranges (i : Z) :
  0 <= i ->
  (i < 3 -> get_dimension_for_question i = "EI")
  /\ (3 <= i < 6 -> get_dimension_for_question i = "SN")
  /\ (6 <= i < 9 -> get_dimension_for_question i = "TF")
  /\ (9 <= i < 12 -> get_dimension_for_question i = "JP")
  /\ (12 <= i ->
      get_dimension_for_question i = ""
      /\ assoc (get_dimension_for_question i) DICTIONARY = None).
Proof.
  intros Hi. unfold get_dimension_for_question.
  destruct (Z.ltb_spec i 3); [repeat split; intros; (reflexivity || lia)|].
  destruct (Z.ltb_spec i 6); [repeat split; intros; (reflexivity || lia)|].
  destruct (Z.ltb_spec i 9); [repeat split; intros; (reflexivity || lia)|].
  destruct (Z.ltb_spec i 12); repeat split; intros; (reflexivity || lia).
Qed.

Lemma get_dimension_for_question_ranges_witness :
  0 <= 7 /\ get_dimension_for_question 7 = "TF".
Proof.
  split; [lia|].
  destruct (get_dimension_for_question_ranges 7 ltac:(lia))
    as (_ & _ & H & _).
  apply H. lia.
Defined.

(** The shadowed resolver has no such sentinel: every index from 9 on,
    twelve and beyond included, is sent to JP. [run_analysis] inlines this
    variant, [calculate_partial_mbti] the one in force. *)
Lemma shadowed_get_dimension_for_question_from_9 (i : Z) :
  9 <= i -> Shadowed.get_dimension_for_question i = "JP".
Proof.
  intros Hi. unfold Shadowed.get_dimension_for_question.
  destruct (Z.ltb_spec i 3); [lia|].
  destruct (Z.ltb_spec i 6); [lia|].
  destruct (Z.ltb_spec i 9); [lia|]. reflexivity.
Qed.

(** ** Tie-break *)

Lemma geb_refl (x : Z) : (x >=? x) = true.
Proof. rewrite Z.geb_leb. apply Z.leb_refl. Qed.

(** C1, as stated, fails: on equal totals the first trait of the pair is
    named, not the second. A neutral answer leaves E and I at zero and the
    side is E; twelve neutral answers give the label ESTJ in both modes. *)
Lemma tie_does_not_go_to_second_trait :
  analyze_single_answer neutral_answer "EI" =
    Ok {| scores := zeros ["E"; "I"]; side := "E"; score := 0 |}
  /\ calculate_partial_mbti (repeat (PyStr neutral_answer) 12) =
       Ok ("ESTJ", zeros (chars "EISNTFJP"))
  /\ run_analysis (repeat (PyStr neutral_answer) 12) =
       Ok ("ESTJ", zeros (chars "EISNTFJP"),
           <["JP" := 0 # 10]> (<["TF" := 0 # 10]>
             (<["SN" := 0 # 10]> (<["EI" := 0 # 10]> ∅)))).
Proof. repeat split; vm_compute; reflexivity. Qed.

(** C1, amended. In every dimension, whenever the two trait totals are
    equal the first trait of the pair wins (E over I, S over N, T over F, J
    over P): in single-answer scoring, in the partial-mode label once the
    dimension is unlocked, and in the final-mode label. *)
Theorem tie_breaks_to_first_trait (dim t1 t2 : string) (k : nat) :
  In (dim, t1, t2, k) dimension_table ->
  (forall answer, exists r,
      analyze_single_answer answer dim = Ok r
      /\ (get0 (scores r) t1 = get0 (scores r) t2 -> side r = t1))
  /\ (forall answers, exists mbti sc,
        calculate_partial_mbti answers = Ok (mbti, sc)
        /\ (unlock_threshold k <= Z.of_nat (length answers) ->
            get0 sc t1 = get0 sc t2 -> letter k mbti = t1))
  /\ (forall texts, exists mbti sc conf,
        run_analysis (map PyStr texts) = Ok (mbti, sc, conf)
        /\ (get0 sc t1 = get0 sc t2 -> letter k mbti = t1)).
Proof.
  intros Hin. split; [|split].
  - intros answer. eexists. split.
    + apply (analyze_single_answer_spec _ _ _ _ _ Hin).
    + cbn [scores side]. intros ->. by rewrite geb_refl.
  - intros answers. eexists _, _. split.
    + apply calculate_partial_mbti_spec.
    + intros Hn Htie. cbv zeta.
      set (sc := session_scores get_dimension_for_question answers) in *.
      each_dimension Hin; unfold unlock_threshold in Hn; simpl in Hn;
        unfold winner; rewrite Htie, geb_refl;
        repeat match goal with
          | |- context [?a <=? ?b] => destruct (Z.leb_spec a b); try lia
          end;
        repeat match goal with
          | |- context [?a >=? ?b] => destruct (a >=? b)
          end; reflexivity.
  - intros texts. eexists _, _, _. split.
    + apply run_analysis_text.
    + intros Htie. cbv zeta.
      set (sc := session_scores _ _) in *.
      each_dimension Hin; unfold winner; rewrite Htie, geb_refl;
        repeat match goal with
          | |- context [?a >=? ?b] => destruct (a >=? b) eqn:?; try lia
          end; reflexivity.
Qed.

Lemma tie_breaks_to_first_trait_witness :
  In ("EI", "E", "I", 0%nat) dimension_table
  /\ exists r, analyze_single_answer neutral_answer "EI" = Ok r
               /\ side r = "E".
Proof.
  split; [simpl; tauto|].
  destruct (tie_breaks_to_first_trait "EI" "E" "I" 0%nat
              ltac:(simpl; tauto)) as [H _].
  destruct (H neutral_answer) as (r & Hr & Hside).
  exists r. split; [exact Hr|]. apply Hside.
  vm_compute in Hr. injection Hr as <-. reflexivity.
Defined.

Lemma shadowed_analyze_single_answer_spec dim t1 t2 k ans :
  In (dim, t1, t2, k) dimension_table ->
  Shadowed.analyze_single_answer ans dim =
    let sc := bump (shadowed_delta ans dim) (zeros (chars "EISNTFJP")) in
    Ok {| scores := sc; side := winner t1 t2 sc;
          score := Z.max (get0 sc t1) (get0 sc t2) |}.
Proof.
  intros Hin.
  destruct (DICTIONARY_rows _ _ _ _ Hin) as (k1 & k2 & Hrows).
  destruct (full_dimension _ _ _ _ _ Hin full_zeros) as [H1 H2].
  unfold Shadowed.analyze_single_answer. rewrite Hrows.
  rewrite (match_keywords_spec _ (fun w => str_in w ans))
    by (done || (intros row [<-|[<-|[]]]; done)).
  cbn [bind fst].
  rewrite (apply_style_correction_spec _ _ _ _ _ _ Hin)
    by (by rewrite bump_is_Some).
  cbn [bind]. rewrite bump_bump.
  assert (Hsc : bump (fun j => lexicon_delta (fun w => str_in w ans)
                                 [(t1, k1); (t2, k2)] j
                               + style_delta ans dim j)
                  (zeros (chars "EISNTFJP"))
                = bump (shadowed_delta ans dim) (zeros (chars "EISNTFJP"))).
  { apply bump_ext. intros j. unfold shadowed_delta. by rewrite Hrows. }
  rewrite Hsc. cbv zeta.
  set (sc := bump (shadowed_delta ans dim) (zeros (chars "EISNTFJP"))).
  assert (Hfull : full sc) by apply full_bump, full_zeros.
  destruct (full_dimension _ _ _ _ _ Hin Hfull) as [Hs1 Hs2].
  each_dimension Hin; eqb_lit; unfold Shadowed.resolve;
    rewrite !getitem_get0 by done; reflexivity.
Qed.

(** C4, as stated, fails: there is no answer and dimension on which both
    definitions see equal totals and name different sides. *)
Lemma definitions_do_not_disagree_on_ties :
  ~ exists (answer : str) (dim t1 t2 : string) (k : nat) (r1 r2 : analysis),
      In (dim, t1, t2, k) dimension_table
      /\ Shadowed.analyze_single_answer answer dim = Ok r1
      /\ analyze_single_answer answer dim = Ok r2
      /\ get0 (scores r1) t1 = get0 (scores r1) t2
      /\ get0 (scores r2) t1 = get0 (scores r2) t2
      /\ side r1 <> side r2.
Proof.
  intros (answer & dim & t1 & t2 & k & r1 & r2 & Hin & E1 & E2 & T1 & T2 & Hne).
  rewrite (shadowed_analyze_single_answer_spec _ _ _ _ _ Hin) in E1.
  rewrite (analyze_single_answer_spec _ _ _ _ _ Hin) in E2.
  cbv zeta in E1, E2. injection E1 as <-. injection E2 as <-.
  cbn [scores side] in *. unfold winner in Hne.
  rewrite T1, T2, !geb_refl in Hne. by apply Hne.
Qed.

(** C4, amended. The two definitions of [analyze_single_answer] resolve
    equal totals the same way: each of them returns a result for every
    answer and each of the four dimensions, and names the first trait of the
    pair whenever its two totals are equal. *)
Theorem tie_break_same_in_both_definitions (dim t1 t2 : string) (k : nat)
    (answer : str) :
  In (dim, t1, t2, k) dimension_table ->
  exists r1 r2,
    Shadowed.analyze_single_answer answer dim = Ok r1
    /\ analyze_single_answer answer dim = Ok r2
    /\ (get0 (scores r1) t1 = get0 (scores r1) t2 -> side r1 = t1)
    /\ (get0 (scores r2) t1 = get0 (scores r2) t2 -> side r2 = t1).
Proof.
  intros Hin. eexists _, _. split; [|split; [|split]].
  - apply (shadowed_analyze_single_answer_spec _ _ _ _ _ Hin).
  - apply (analyze_single_answer_spec _ _ _ _ _ Hin).
  - cbn [scores side]. unfold winner. intros ->. by rewrite geb_refl.
  - cbn [scores side]. intros ->. by rewrite geb_refl.
Qed.

Lemma tie_break_same_in_both_definitions_witness :
  In ("TF", "T", "F", 2%nat) dimension_table
  /\ exists r1 r2,
       Shadowed.analyze_single_answer neutral_answer "TF" = Ok r1
       /\ analyze_single_answer neutral_answer "TF" = Ok r2
       /\ side r1 = "T" /\ side r2 = "T".
Proof.
  split; [simpl; tauto|].
  destruct (tie_break_same_in_both_definitions "TF" "T" "F" 2%nat
              neutral_answer ltac:(simpl; tauto))
    as (r1 & r2 & E1 & E2 & H1 & H2).
  exists r1, r2. repeat split; try assumption.
  - apply H1. vm_compute in E1. injection E1 as <-. reflexivity.
  - apply H2. vm_compute in E2. injection E2 as <-. reflexivity.
Defined.

(** Where the two definitions do differ is outside the four dimensions: on
    an unknown two-letter tag the shadowed one falls into its JP branch and
    the one in force names the first letter of the tag; on the empty tag
    the latter cannot unpack two traits and raises. *)
Lemma unknown_dimension_handling :
  side <$> (match Shadowed.analyze_single_answer (py "") "XY" with
            | Ok r => Some r | Raise _ => None end) = Some "J"
  /\ side <$> (match analyze_single_answer (py "") "XY" with
               | Ok r => Some r | Raise _ => None end) = Some "X"
  /\ side <$> (match Shadowed.analyze_single_answer (py "") "" with
               | Ok r => Some r | Raise _ => None end) = Some "J"
  /\ analyze_single_answer (py "") "" = Raise ValueError.
Proof. repeat split; vm_compute; reflexivity. Qed.

(** ** Fallback gating *)

(** C2, as stated, fails for EI: a lexicon match switches the style
    corrector off there too. The answer below is the first I keyword: it
    matches once, is shorter than 20 characters, so that the style corrector
    would add 1 to I, and yet I ends at the keyword weight 5. *)
Lemma style_correction_not_applied_after_EI_match :
  match_count first_I_keyword "EI" = 1%nat
  /\ apply_style_correction first_I_keyword "EI" (zeros ["E"; "I"]) =
       Ok (<["I" := 1]> (zeros ["E"; "I"]))
  /\ analyze_single_answer first_I_keyword "EI" =
       Ok {| scores := <["I" := 5]> (zeros ["E"; "I"]);
             side := "I"; score := 5 |}.
Proof. repeat split; vm_compute; reflexivity. Qed.

(** C2, amended. For every text answer and each of the four dimensions, EI
    included: when the lexicon matcher and the heuristic augmenter produce
    no match the answer contributes what the style corrector adds and
    nothing else, and when they produce at least one match it contributes
    what they add and the style corrector is skipped. This holds for
    single-answer scoring and for the loop bodies of both session modes. *)
Theorem fallback_gating (dim t1 t2 : string) (k : nat) (answer : str) :
  In (dim, t1, t2, k) dimension_table ->
  let added :=
    if (match_count answer dim =? 0)%nat then style_delta answer dim
    else match_delta answer dim in
  (exists r, analyze_single_answer answer dim = Ok r
             /\ scores r = bump added (zeros [t1; t2]))
  /\ (forall i d, full d -> get_dimension_for_question i = dim ->
        calculate_partial_mbti_body d (i, PyStr answer) = Ok (bump added d))
  /\ (forall i d, full d -> Shadowed.get_dimension_for_question i = dim ->
        run_analysis_body d (i, PyStr answer) = Ok (bump added d)).
Proof.
  intros Hin added.
  assert (Hadded : forall d, bump (contribution answer dim) d = bump added d).
  { intros d. apply bump_ext. intros j. unfold contribution, added.
    by destruct (match_count answer dim =? 0)%nat. }
  split; [|split].
  - eexists. split; [apply (analyze_single_answer_spec _ _ _ _ _ Hin)|].
    cbn [scores]. apply Hadded.
  - intros i d Hd <-. rewrite calculate_partial_mbti_body_spec by done.
    unfold entry_delta. cbn [fst snd]. by rewrite Hadded.
  - intros i d Hd <-. rewrite run_analysis_body_text by done.
    by rewrite Hadded.
Qed.

Lemma fallback_gating_witness :
  In ("EI", "E", "I", 0%nat) dimension_table
  /\ exists r, analyze_single_answer first_I_keyword "EI" = Ok r
               /\ scores r = bump (match_delta first_I_keyword "EI")
                               (zeros ["E"; "I"]).
Proof.
  split; [simpl; tauto|].
  destruct (fallback_gating "EI" "E" "I" 0%nat first_I_keyword
              ltac:(simpl; tauto)) as [(r & Hr & Hsc) _].
  exists r. split; [exact Hr|]. exact Hsc.
Defined.

(** ** Final mode: confidence *)

Lemma get_conf_sym (a b : Z) : get_conf a b = get_conf b a.
Proof.
  unfold get_conf.
  replace (Z.abs (b - a)) with (Z.abs (a - b)) by lia.
  by rewrite (Z.add_comm b a).
Qed.

Lemma confidence_lookup (e s t j : Q) :
  let conf : gmap string Q :=
    <["JP" := j]> (<["TF" := t]> (<["SN" := s]> (<["EI" := e]> ∅))) in
  conf !! "EI" = Some e /\ conf !! "SN" = Some s
  /\ conf !! "TF" = Some t /\ conf !! "JP" = Some j.
Proof. repeat split; reflexivity. Qed.

(** ** Partial mode: shape of the label *)

(** C7. On every list of entries [calculate_partial_mbti] returns a label of
    four characters in EI, SN, TF, JP order: the position of a dimension
    holds its winning trait when the number of entries has reached its
    threshold (3, 6, 9, 12) and [X] otherwise. With five entries the label
    is E or I followed by [XXX]. *)
Theorem partial_label_shape :
  (forall answers, exists mbti sc,
      calculate_partial_mbti answers = Ok (mbti, sc)
      /\ String.length mbti = 4%nat
      /\ Forall (fun row : string * string * string * nat =>
           let '(dim, t1, t2, k) := row in
           letter k mbti =
             if unlock_threshold k <=? Z.of_nat (length answers)
             then winner t1 t2 sc else "X")
         dimension_table)
  /\ (forall a1 a2 a3 a4 a5, exists c sc,
        calculate_partial_mbti [a1; a2; a3; a4; a5]
          = Ok (String.append c "XXX", sc)
        /\ (c = "E" \/ c = "I")).
Proof.
  split.
  - intros answers. eexists _, _. split; [apply calculate_partial_mbti_spec|].
    cbv zeta. set (sc := session_scores _ _).
    set (n := Z.of_nat (length answers)).
    unfold dimension_table, winner. rewrite !Forall_cons, Forall_nil.
    change (unlock_threshold 0) with 3. change (unlock_threshold 1) with 6.
    change (unlock_threshold 2) with 9. change (unlock_threshold 3) with 12.
    destruct (3 <=? n), (6 <=? n), (9 <=? n), (12 <=? n);
      destruct (get0 sc "E" >=? get0 sc "I"), (get0 sc "S" >=? get0 sc "N"),
        (get0 sc "T" >=? get0 sc "F"), (get0 sc "J" >=? get0 sc "P");
      repeat split; reflexivity.
  - intros a1 a2 a3 a4 a5.
    rewrite calculate_partial_mbti_spec. cbv zeta.
    set (sc := session_scores _ _). simpl. unfold winner.
    destruct (get0 sc "E" >=? get0 sc "I"); eexists _, _; split;
      try reflexivity; tauto.
Qed.

(** ** Non-text entries *)

(** In partial mode a non-text entry leaves every total as it is, whatever
    its position, and the scoring of the list returns. *)
Lemma partial_mode_skips_non_text :
  (forall i d, full d -> calculate_partial_mbti_body d (i, PyNone) = Ok d)
  /\ (forall answers, exists mbti,
        calculate_partial_mbti answers =
          Ok (mbti, session_scores get_dimension_for_question answers)).
Proof.
  split.
  - intros i d Hd. rewrite calculate_partial_mbti_body_spec by done.
    f_equal. by apply bump_zero.
  - intros answers. eexists. apply calculate_partial_mbti_spec.
Qed.

Lemma session_delta_non_text_from (i : Z) (before after : list pyobj)
    (t : string) :
  session_delta get_dimension_for_question
    (enumerate_from i (before ++ PyNone :: after)) t =
  session_delta get_dimension_for_question (enumerate_from i before) t
  + session_delta get_dimension_for_question
      (enumerate_from (i + Z.of_nat (length before) + 1) after) t.
Proof.
  revert i. induction before as [|a before IH]; intros i.
  - cbn [app enumerate_from length]. unfold session_delta.
    cbn [map foldr]. unfold entry_delta at 1. cbn [snd].
    replace (i + Z.of_nat 0 + 1) with (i + 1) by lia. reflexivity.
  - cbn [app enumerate_from length]. unfold session_delta in *.
    cbn [map foldr]. rewrite IH.
    replace (i + 1 + Z.of_nat (length before) + 1)
      with (i + Z.of_nat (S (length before)) + 1) by lia.
    lia.
Qed.

(** It still takes up its position: the entries after it keep the
    dimensions of their own indices. *)
Lemma non_text_entry_keeps_position (before after : list pyobj) (t : string) :
  session_delta get_dimension_for_question
    (enumerate (before ++ PyNone :: after)) t =
  session_delta get_dimension_for_question (enumerate before) t
  + session_delta get_dimension_for_question
      (enumerate_from (Z.of_nat (length before) + 1) after) t.
Proof. apply (session_delta_non_text_from 0). Qed.

(** C9 holds of the partial mode only. In final mode a list with a non-text
    entry is not scored: the membership test of the first keyword raises.
    Here the entry is the last of a twelve-answer session. *)
Theorem run_analysis_raises_on_non_text_entry :
  run_analysis (repeat (PyStr neutral_answer) 11 ++ [PyNone])
    = Raise TypeError.
Proof. apply run_analysis_non_text. apply in_app_iff. right. by left. Qed.

(** ** Confidence bounds *)

Lemma round_half_even_comp (x y : Q) :
  (x == y)%Q -> round_half_even x = round_half_even y.
Proof.
  intros H. unfold round_half_even. cbv zeta.
  rewrite (Qfloor_comp _ _ H).
  replace (Qcompare (x - inject_Z (Qfloor y)) (1 # 2))
    with (Qcompare (y - inject_Z (Qfloor y)) (1 # 2)); [reflexivity|].
  apply Qcompare_comp; [by rewrite H | reflexivity].
Qed.

Lemma round_half_even_Qmake (p : Z) (q : positive) :
  round_half_even (p # q) = round_half_even_frac p (Z.pos q).
Proof.
  unfold round_half_even, round_half_even_frac. cbv zeta.
  change (Qfloor (p # q)) with (p / Z.pos q).
  set (f := p / Z.pos q).
  replace (Qcompare ((p # q) - inject_Z f) (1 # 2))
    with (2 * (p - f * Z.pos q) ?= Z.pos q); [reflexivity|].
  unfold Qcompare, Qminus, Qplus, Qopp, inject_Z. cbn [Qnum Qden].
  rewrite Pos.mul_1_r. f_equal; lia.
Qed.

Lemma get_conf_argument (a b : Z) :
  0 <= a -> 0 <= b ->
  ((inject_Z (Z.abs (a - b)) / (inject_Z (a + b) + (1 # 10))) * 100 * 10
   == (10000 * Z.abs (a - b)) # Z.to_pos (10 * (a + b) + 1))%Q.
Proof.
  intros Ha Hb.
  rewrite (Qmake_Qdiv (10000 * Z.abs (a - b))).
  rewrite Z2Pos.id by lia.
  repeat (rewrite inject_Z_plus || rewrite inject_Z_mult).
  field. split.
  - unfold Qeq, Qplus, Qmult, inject_Z. simpl. lia.
  - unfold Qeq, Qplus, Qmult, inject_Z. simpl. lia.
Qed.

Lemma get_conf_tenths (a b : Z) :
  0 <= a -> 0 <= b ->
  get_conf a b =
    Qmake (round_half_even_frac (10000 * Z.abs (a - b)) (10 * (a + b) + 1)) 10.
Proof.
  intros Ha Hb. unfold get_conf, round1. f_equal.
  rewrite (round_half_even_comp _ _ (get_conf_argument a b Ha Hb)).
  rewrite round_half_even_Qmake. by rewrite Z2Pos.id by lia.
Qed.


Lemma round_half_even_frac_zero (p q : Z) :
  0 <= p -> 0 < q -> round_half_even_frac p q = 0 <-> 2 * p <= q.
Proof.
  intros Hp Hq. unfold round_half_even_frac. cbv zeta.
  assert (Hf : 0 <= p / q) by (apply Z.div_pos; lia).
  pose proof (Z.div_mod p q ltac:(lia)) as Hdm.
  pose proof (Z.mod_pos_bound p q Hq) as Hm.
  destruct (Z.eq_dec (p / q) 0) as [E|E].
  - rewrite E in *. cbn [Z.mul Z.even].
    rewrite Z.sub_0_r. destruct (Z.compare_spec (2 * p) q); lia.
  - assert (q <= p) by nia.
    destruct (2 * (p - p / q * q) ?= q); [destruct (Z.even (p / q))|..]; lia.
Qed.




(** The double-precision computation returns the same decimal as the exact
    one on every pair of totals below 48. *)
Lemma binary64_agrees_below_48 :
  forallb (fun a => forallb (binary64_agrees a) (totals_below 48))
    (totals_below 48) = true.
Proof. vm_compute. reflexivity. Qed.

(** ** Monotonicity under extension of the answer *)

Section Substrings.

Implicit Types (p s pre post : str).

Lemma startswith_app p s post :
  startswith p s = true -> startswith p (s ++ post)%list = true.
Proof.
  revert s. induction p as [|c p IH]; intros [|d s]; simpl; try done.
  intros [-> H]%andb_true_iff. by rewrite IH.
Qed.

Lemma str_in_app_r p s post : str_in p s = true -> str_in p (s ++ post)%list = true.
Proof.
  induction s as [|d s IH]; simpl.
  - rewrite orb_false_r. destruct p; [|done]. intros _. by destruct post.
  - intros [H|H]%orb_true_iff.
    + pose proof (startswith_app p (d :: s) post H) as H'.
      simpl in H'. by rewrite H'.
    + rewrite IH by done. apply orb_true_r.
Qed.

Lemma str_in_app_l p s pre : str_in p s = true -> str_in p (pre ++ s)%list = true.
Proof.
  intros H. induction pre as [|d pre IH]; [done|].
  simpl. rewrite IH. apply orb_true_r.
Qed.

Lemma str_in_extend p s pre post :
  str_in p s = true -> str_in p (pre ++ s ++ post)%list = true.
Proof. intros H. by apply str_in_app_l, str_in_app_r. Qed.

Lemma re_search_extend alternatives s pre post :
  re_search alternatives s = true ->
  re_search alternatives (pre ++ s ++ post)%list = true.
Proof.
  unfold re_search. rewrite !existsb_exists.
  intros (a & Ha & H). exists a. split; [done|]. by apply str_in_extend.
Qed.

End Substrings.

Section Monotone.

Variables (present present' : str -> bool).
Hypothesis Hsub : forall w, present w = true -> present' w = true.

Lemma keyword_weight_mono keywords :
  Forall (fun k : str * Z => 0 <= snd k) keywords ->
  0 <= keyword_weight present keywords <= keyword_weight present' keywords.
Proof.
  unfold keyword_weight. induction 1 as [|[word w] keywords Hw _ IH];
    simpl in *; [lia|].
  destruct (present word) eqn:E; [rewrite (Hsub _ E); lia|].
  destruct (present' word); lia.
Qed.

Lemma keyword_matches_mono keywords :
  (keyword_matches present keywords
   <= keyword_matches present' keywords)%nat.
Proof.
  unfold keyword_matches. induction keywords as [|[word w] keywords IH];
    simpl; [lia|].
  destruct (present word) eqn:E; [rewrite (Hsub _ E); simpl; lia|].
  destruct (present' word); simpl; lia.
Qed.

Lemma lexicon_delta_mono table t :
  Forall (fun row : string * list (str * Z) =>
            Forall (fun k : str * Z => 0 <= snd k) (snd row)) table ->
  0 <= lexicon_delta present table t <= lexicon_delta present' table t.
Proof.
  unfold lexicon_delta. induction 1 as [|[trait keywords] table Hw _ IH];
    simpl in *; [lia|].
  pose proof (keyword_weight_mono keywords Hw).
  destruct (String.eqb trait t); lia.
Qed.

Lemma lexicon_matches_mono table :
  (lexicon_matches present table <= lexicon_matches present' table)%nat.
Proof.
  unfold lexicon_matches. induction table as [|[trait keywords] table IH];
    simpl; [lia|].
  pose proof (keyword_matches_mono keywords). lia.
Qed.

End Monotone.

Lemma keyword_weight_ge present keywords word w :
  Forall (fun k : str * Z => 0 <= snd k) keywords ->
  In (word, w) keywords -> present word = true ->
  w <= keyword_weight present keywords
  /\ (1 <= keyword_matches present keywords)%nat.
Proof.
  unfold keyword_weight, keyword_matches.
  induction 1 as [|[word' w'] keywords Hw Hall IH]; [done|].
  intros [[= -> ->]|Hin] Hp; simpl in *.
  - rewrite Hp. simpl.
    pose proof (keyword_weight_mono present present (fun _ H => H) keywords
                  Hall) as Hk. unfold keyword_weight in Hk. lia.
  - destruct (IH Hin Hp). destruct (present word'); simpl; lia.
Qed.

Lemma lexicon_delta_ge present table t keywords word w :
  Forall (fun row : string * list (str * Z) =>
            Forall (fun k : str * Z => 0 <= snd k) (snd row)) table ->
  In (t, keywords) table -> In (word, w) keywords -> present word = true ->
  w <= lexicon_delta present table t
  /\ (1 <= lexicon_matches present table)%nat.
Proof.
  unfold lexicon_delta, lexicon_matches.
  induction 1 as [|[trait' keywords'] table Hw Hall IH]; [done|].
  intros [[= -> ->]|Hin] Hk Hp; simpl in *.
  - rewrite String.eqb_refl.
    destruct (keyword_weight_ge present keywords word w Hw Hk Hp).
    pose proof (lexicon_delta_mono present present (fun _ H => H) table t
                  Hall) as Hl. unfold lexicon_delta in Hl. lia.
  - destruct (IH Hin Hk Hp).
    pose proof (keyword_weight_mono present present (fun _ H => H) keywords'
                  Hw).
    destruct (String.eqb trait' t); lia.
Qed.

Lemma heuristic_mono found found' dim t :
  (forall p, found p = true -> found' p = true) ->
  0 <= heuristic_delta found dim t <= heuristic_delta found' dim t
  /\ (heuristic_matches found dim <= heuristic_matches found' dim)%nat.
Proof.
  intros Hsub. unfold heuristic_delta, heuristic_matches.
  assert (Hw : Forall (fun rule : string * string * list str * Z =>
                         0 <= snd rule) heuristic_rules)
    by (repeat constructor; simpl; lia).
  induction Hw as [|[[[d tr] pattern] w] rules Hw _ IH]; simpl in *; [lia|].
  change (rule_fires found dim (d, tr, pattern, w))
    with (String.eqb d dim && found pattern).
  change (rule_fires found' dim (d, tr, pattern, w))
    with (String.eqb d dim && found' pattern).
  destruct (String.eqb d dim); simpl; [|lia].
  destruct (found pattern) eqn:E; [rewrite (Hsub _ E); simpl|].
  - destruct (String.eqb tr t); lia.
  - destruct (found' pattern); simpl; destruct (String.eqb tr t); lia.
Qed.

Lemma assoc_In {V : Type} (k : string) (d : list (string * V)) (v : V) :
  assoc k d = Some v -> In (k, v) d.
Proof.
  induction d as [|[k' v'] d IH]; simpl; [done|].
  destruct (String.eqb_spec k' k) as [->|_]; [intros [= ->]; by left|].
  intros H. right. by apply IH.
Qed.

Lemma weights_cover_style_true : weights_cover_style = true.
Proof. vm_compute. reflexivity. Qed.

Lemma dictionary_weight dim table t keywords word w :
  assoc dim DICTIONARY = Some table ->
  In (t, keywords) table -> In (word, w) keywords -> style_cap t <= w.
Proof.
  intros Hd Ht Hk. pose proof weights_cover_style_true as H.
  unfold weights_cover_style in H. rewrite forallb_forall in H.
  specialize (H _ (assoc_In _ _ _ Hd)). cbn [snd] in H.
  rewrite forallb_forall in H. specialize (H _ Ht). cbn [fst snd] in H.
  rewrite forallb_forall in H. specialize (H _ Hk). cbn [snd] in H. lia.
Qed.

Lemma style_cap_pos t : 1 <= style_cap t.
Proof. unfold style_cap. destruct (String.eqb t "F"); lia. Qed.

Lemma dictionary_nonneg dim table :
  assoc dim DICTIONARY = Some table ->
  Forall (fun row : string * list (str * Z) =>
            Forall (fun k : str * Z => 0 <= snd k) (snd row)) table.
Proof.
  intros Hd. apply List.Forall_forall. intros [t keywords] Ht.
  apply List.Forall_forall. intros [word w] Hk. cbn [snd].
  pose proof (dictionary_weight _ _ _ _ _ _ Hd Ht Hk).
  pose proof (style_cap_pos t). lia.
Qed.

Lemma assoc_DICTIONARY_inv dim table :
  assoc dim DICTIONARY = Some table ->
  exists t1 t2 k k1 k2,
    In (dim, t1, t2, k) dimension_table /\ table = [(t1, k1); (t2, k2)].
Proof.
  unfold DICTIONARY. cbn [assoc].
  repeat match goal with
    | |- context [String.eqb ?a dim] =>
        destruct (String.eqb_spec a dim) as [<-|_];
        [intros [= <-]; eexists _, _, _, _, _; split;
         [unfold dimension_table; simpl; eauto 6 | reflexivity]|]
    end.
  discriminate.
Qed.

Lemma style_delta_cap ans dim t : 0 <= style_delta ans dim t <= style_cap t.
Proof.
  unfold style_delta, style_cap.
  generalize (len ans >? 50), (len ans <? 20),
    (sum_in abstract_words ans >=? 2), (sum_in concrete_words ans >=? 2),
    (str_count (py "?") ans + str_count how_word ans
     + str_count why_word ans >=? 2),
    (sum_count exclamations ans >=? 3), (sum_count exclamations ans >=? 1),
    (existsb (fun word => str_in word ans) decisive_words),
    (sum_in uncertain_words ans >=? 1).
  intros b1 b2 b3 b4 b5 b6 b7 b8 b9. cbv [Z.b2z].
  destruct (String.eqb dim "EI");
    [|destruct (String.eqb dim "SN");
      [|destruct (String.eqb dim "TF"); [|destruct (String.eqb dim "JP")]]];
    repeat match goal with
      | |- context [if ?c then _ else _] => destruct c
      end; lia.
Qed.

(** Under fallback gating, an answer extended so that a keyword of trait
    [t] occurs adds at least as much to [t] as the answer did. *)
Lemma contribution_extend dim table t keywords word w ans pre post :
  assoc dim DICTIONARY = Some table ->
  In (t, keywords) table -> In (word, w) keywords ->
  str_in word (pre ++ ans ++ post)%list = true ->
  contribution ans dim t <= contribution (pre ++ ans ++ post)%list dim t.
Proof.
  intros Hd Ht Hk Hw. set (ext := (pre ++ ans ++ post)%list) in *.
  pose proof (dictionary_nonneg _ _ Hd) as Hnn.
  pose proof (dictionary_weight _ _ _ _ _ _ Hd Ht Hk) as Hcap.
  destruct (lexicon_delta_ge (fun x => str_in x ext) table t keywords word w
              Hnn Ht Hk Hw) as [Hge Hm].
  assert (Hsub : forall x, str_in x ans = true -> str_in x ext = true)
    by (intros x; apply str_in_extend).
  assert (Hsub' : forall p, re_search p ans = true -> re_search p ext = true)
    by (intros p; apply re_search_extend).
  pose proof (lexicon_delta_mono _ _ Hsub table t Hnn) as Hl.
  pose proof (lexicon_matches_mono _ _ Hsub table) as Hlm.
  destruct (heuristic_mono _ _ dim t Hsub') as [Hh Hhm].
  unfold contribution, match_count, match_delta. rewrite Hd.
  replace ((lexicon_matches (fun x => str_in x ext) table
            + heuristic_matches (fun p => re_search p ext) dim =? 0)%nat)
    with false by (symmetry; apply Nat.eqb_neq; lia).
  destruct (Nat.eqb_spec
              (lexicon_matches (fun x => str_in x ans) table
               + heuristic_matches (fun p => re_search p ans) dim) 0).
  - pose proof (style_delta_cap ans dim t). lia.
  - lia.
Qed.

(** C8, as stated, fails in its second half: the keyword below belongs to
    trait N and begins with a keyword of trait S, so that appending it to the
    empty answer raises N from 0 to 5 and the opposing S from 0 to 3. *)
Lemma keyword_can_raise_opposing_trait :
  In (N_keyword_with_S_prefix, 5) SN_N_keywords
  /\ analyze_single_answer (py "") "SN" =
       Ok {| scores := zeros ["S"; "N"]; side := "S"; score := 0 |}
  /\ analyze_single_answer (py "" ++ N_keyword_with_S_prefix)%list "SN" =
       Ok {| scores := <["N" := 5]> (<["S" := 3]> (zeros ["S"; "N"]));
             side := "N"; score := 5 |}.
Proof.
  split; [|split].
  - vm_compute. tauto.
  - vm_compute. reflexivity.
  - vm_compute. reflexivity.
Qed.

(** C8, amended. For every answer, dimension and keyword of one of its
    traits, an answer extended at either end so that the keyword occurs in
    it scores that trait at least as high as the answer itself did. *)
Theorem keyword_never_lowers_own_trait (dim t : string)
    (table : list (string * list (str * Z))) (keywords : list (str * Z))
    (word : str) (w : Z) (answer pre post : str) :
  assoc dim DICTIONARY = Some table ->
  In (t, keywords) table -> In (word, w) keywords ->
  str_in word (pre ++ answer ++ post)%list = true ->
  exists r r',
    analyze_single_answer answer dim = Ok r
    /\ analyze_single_answer (pre ++ answer ++ post)%list dim = Ok r'
    /\ get0 (scores r) t <= get0 (scores r') t.
Proof.
  intros Hd Ht Hk Hw.
  destruct (assoc_DICTIONARY_inv _ _ Hd)
    as (t1 & t2 & k & k1 & k2 & Hin & ->).
  destruct (zeros_pair _ _ _ _ Hin) as [Hz1 Hz2].
  eexists _, _. split; [|split].
  - apply (analyze_single_answer_spec _ _ _ _ _ Hin).
  - apply (analyze_single_answer_spec _ _ _ _ _ Hin).
  - cbn [scores].
    assert (Hkey : is_Some (zeros [t1; t2] !! t)).
    { destruct Ht as [[= <- _]|[[= <- _]|[]]]; by eexists. }
    rewrite !get0_bump by done.
    pose proof (contribution_extend _ _ _ _ _ _ answer pre post Hd Ht Hk Hw).
    lia.
Qed.

Lemma keyword_never_lowers_own_trait_witness :
  exists r r',
    analyze_single_answer (py "!!!") "TF" = Ok r
    /\ analyze_single_answer (py "!!!" ++ why_word)%list "TF" = Ok r'
    /\ get0 (scores r) "T" <= get0 (scores r') "T".
Proof.
  apply (keyword_never_lowers_own_trait "TF" "T"
           [("T", TF_T_keywords); ("F", TF_F_keywords)] TF_T_keywords
           why_word 5 (py "!!!") [] why_word).
  - reflexivity.
  - by left.
  - vm_compute. tauto.
  - vm_compute. reflexivity.
Defined.

(** ** Marker counts of the SN style rule *)

Lemma startswith_chars (p s : str) :
  startswith p s = true -> forall c, In c p -> In c s.
Proof.
  revert s. induction p as [|a p IH]; intros [|b s]; simpl; try done.
  intros [->%N.eqb_eq H]%andb_true_iff c [<-|Hc]; [by left|].
  right. by apply IH.
Qed.

Lemma str_in_chars (p s : str) :
  str_in p s = true -> forall c, In c p -> In c s.
Proof.
  induction s as [|b s IH]; simpl.
  - rewrite orb_false_r. by destruct p.
  - intros [H|H]%orb_true_iff c Hc.
    + by apply (startswith_chars p (b :: s) H).
    + right. by apply IH.
Qed.

Lemma In_str_repeat (m : str) (n : nat) (c : N) :
  In c (str_repeat m n) -> In c m.
Proof.
  induction n as [|n IH]; simpl; [done|].
  rewrite in_app_iff. intros [H|H]; [done|by apply IH].
Qed.

Lemma foreign_char_not_in_repeat (w m : str) (n : nat) :
  has_foreign_char w m = true -> str_in w (str_repeat m n) = false.
Proof.
  unfold has_foreign_char. rewrite existsb_exists.
  intros (c & Hc & Hm). apply negb_true_iff in Hm.
  destruct (str_in w (str_repeat m n)) eqn:E; [|done].
  pose proof (In_str_repeat _ _ _ (str_in_chars _ _ E c Hc)) as Hin.
  assert (existsb (N.eqb c) m = true)
    by (apply existsb_exists; exists c; split; [done|apply N.eqb_refl]).
  congruence.
Qed.

Lemma sum_in_filter (words : list str) (ans : str) :
  sum_in words ans
  = Z.of_nat (length (List.filter (fun w => str_in w ans) words))
  /\ 0 <= sum_in words ans <= Z.of_nat (length words).
Proof.
  unfold sum_in. induction words as [|w words [IH1 IH2]]; simpl; [lia|].
  destruct (str_in w ans); simpl Z.b2z; simpl length; lia.
Qed.

Lemma sum_in_repeat (words : list str) (m : str) (n : nat) :
  sum_in words (str_repeat m n)
  <= Z.of_nat (length (List.filter (fun w => negb (has_foreign_char w m))
                         words)).
Proof.
  unfold sum_in. induction words as [|w words IH]; simpl; [lia|].
  destruct (has_foreign_char w m) eqn:E; simpl.
  - rewrite (foreign_char_not_in_repeat _ _ n E). simpl Z.b2z. lia.
  - destruct (str_in w (str_repeat m n)); simpl Z.b2z; lia.
Qed.

Lemma repeated_marker_counts (marker : str) (n : nat) :
  In marker (abstract_words ++ concrete_words) ->
  sum_in abstract_words (str_repeat marker n) <= 1
  /\ sum_in concrete_words (str_repeat marker n) <= 1.
Proof.
  intros Hin.
  pose proof (sum_in_repeat abstract_words marker n) as Ha.
  pose proof (sum_in_repeat concrete_words marker n) as Hc.
  assert (Hcheck : forallb (fun m =>
            (length (List.filter (fun w => negb (has_foreign_char w m))
                       abstract_words) <=? 1)%nat
            && (length (List.filter (fun w => negb (has_foreign_char w m))
                          concrete_words) <=? 1)%nat)
            (abstract_words ++ concrete_words) = true)
    by (vm_compute; reflexivity).
  rewrite forallb_forall in Hcheck. specialize (Hcheck _ Hin).
  apply andb_true_iff in Hcheck as [H1%Nat.leb_le H2%Nat.leb_le]. lia.
Qed.

Lemma no_SN_style_bonus (ans : str) (d : gmap string Z) :
  sum_in abstract_words ans <= 1 -> sum_in concrete_words ans <= 1 ->
  apply_style_correction ans "SN" d = Ok d.
Proof.
  intros Ha Hc. unfold apply_style_correction.
  change (String.eqb "SN" "EI") with false.
  change (String.eqb "SN" "SN") with true.
  change (String.eqb "SN" "TF") with false.
  change (String.eqb "SN" "JP") with false. cbn iota. cbn [bind].
  replace (sum_in abstract_words ans >=? 2) with false
    by (symmetry; rewrite Z.geb_leb; apply Z.leb_gt; lia).
  cbn [bind].
  replace (sum_in concrete_words ans >=? 2) with false
    by (symmetry; rewrite Z.geb_leb; apply Z.leb_gt; lia).
  reflexivity.
Qed.

(** C10. In the SN branch of the style corrector each count is the number
    of listed markers that occur in the answer, at most six, however often
    a marker occurs; an answer made of one marker repeated any number of
    times counts at most 1 on either list and receives no SN style bonus. *)
Theorem sn_markers_count_once (marker : str) (n : nat) :
  In marker (abstract_words ++ concrete_words) ->
  (forall ans,
      sum_in abstract_words ans
        = Z.of_nat (length (List.filter (fun w => str_in w ans)
                              abstract_words))
      /\ sum_in concrete_words ans
           = Z.of_nat (length (List.filter (fun w => str_in w ans)
                                 concrete_words))
      /\ sum_in abstract_words ans <= 6 /\ sum_in concrete_words ans <= 6)
  /\ sum_in abstract_words (str_repeat marker n) <= 1
  /\ sum_in concrete_words (str_repeat marker n) <= 1
  /\ (forall d, apply_style_correction (str_repeat marker n) "SN" d = Ok d).
Proof.
  intros Hin.
  destruct (repeated_marker_counts marker n Hin) as [Ha Hc].
  split; [|split; [done|split; [done|]]].
  - intros ans.
    destruct (sum_in_filter abstract_words ans) as [E1 B1].
    destruct (sum_in_filter concrete_words ans) as [E2 B2].
    change (Z.of_nat (length abstract_words)) with 6 in B1.
    change (Z.of_nat (length concrete_words)) with 6 in B2.
    repeat split; (done || lia).
  - intros d. by apply no_SN_style_bonus.
Qed.

Lemma sn_markers_count_once_witness :
  In (hd [] abstract_words) (abstract_words ++ concrete_words)
  /\ apply_style_correction (str_repeat (hd [] abstract_words) 5) "SN" ∅
     = Ok ∅.
Proof.
  assert (H : In (hd [] abstract_words) (abstract_words ++ concrete_words))
    by (vm_compute; tauto).
  split; [exact H|].
  destruct (sn_markers_count_once (hd [] abstract_words) 5 H)
    as (_ & _ & _ & Hd).
  apply Hd.
Defined.

(** * Further properties of the scoring engine *)

(** ** What an answer contributes *)

Lemma contribution_nonneg ans dim t : 0 <= contribution ans dim t.
Proof.
  unfold contribution, match_delta.
  destruct (match_count ans dim =? 0)%nat; [apply style_delta_cap|].
  pose proof (heuristic_mono (fun p => re_search p ans)
                (fun p => re_search p ans) dim t (fun _ H => H)) as [Hh _].
  destruct (assoc dim DICTIONARY) as [table|] eqn:Hd; [|lia].
  pose proof (lexicon_delta_mono (fun w => str_in w ans)
                (fun w => str_in w ans) (fun _ H => H) table t
                (dictionary_nonneg _ _ Hd)). lia.
Qed.

Lemma contribution_other_trait dim t1 t2 k ans t :
  In (dim, t1, t2, k) dimension_table -> t <> t1 -> t <> t2 ->
  contribution ans dim t = 0.
Proof.
  intros Hin H1 H2.
  destruct (DICTIONARY_rows _ _ _ _ Hin) as (k1 & k2 & Hrows).
  apply String.eqb_neq in H1, H2.
  assert (Hs : style_delta ans dim t = 0).
  { unfold style_delta. each_dimension Hin; eqb_lit; by rewrite H1, H2. }
  assert (Hl : lexicon_delta (fun w => str_in w ans) [(t1, k1); (t2, k2)] t
               = 0).
  { unfold lexicon_delta. simpl.
    by rewrite (String.eqb_sym t1), (String.eqb_sym t2), H1, H2. }
  assert (Hh : heuristic_delta (fun p => re_search p ans) dim t = 0).
  { unfold heuristic_delta, heuristic_rules, rule_fires. simpl.
    each_dimension Hin; eqb_lit; simpl;
      rewrite ?(String.eqb_sym _ t), ?H1, ?H2, ?andb_false_r; reflexivity. }
  unfold contribution, match_delta. rewrite Hrows, Hs, Hl, Hh.
  by destruct (match_count ans dim =? 0)%nat.
Qed.

Lemma entry_delta_nonneg dim_of entry t : 0 <= entry_delta dim_of entry t.
Proof.
  unfold entry_delta. destruct (snd entry); [apply contribution_nonneg|lia].
Qed.

Lemma session_delta_nonneg dim_of entries t :
  0 <= session_delta dim_of entries t.
Proof.
  unfold session_delta. induction entries as [|e entries IH]; simpl; [lia|].
  pose proof (entry_delta_nonneg dim_of e t). lia.
Qed.

Lemma zeros_eight_lookup t v :
  zeros (chars "EISNTFJP") !! t = Some v -> v = 0 /\ In t (chars "EISNTFJP").
Proof.
  intros H.
  destruct (decide (In t (chars "EISNTFJP"))) as [Hin|Hnot].
  - split; [|done]. simpl in Hin.
    repeat (destruct Hin as [<-|Hin]; [vm_compute in H; congruence|]).
    destruct Hin.
  - exfalso. simpl in Hnot. unfold zeros in H. simpl in H.
    repeat (rewrite lookup_insert_ne in H by (intros <-; apply Hnot; tauto)).
    by rewrite lookup_empty in H.
Qed.

Lemma session_scores_lookup dim_of answers t v :
  session_scores dim_of answers !! t = Some v ->
  v = session_delta dim_of (enumerate answers) t
  /\ In t (chars "EISNTFJP").
Proof.
  unfold session_scores. rewrite lookup_bump.
  destruct (zeros (chars "EISNTFJP") !! t) as [z|] eqn:E; [|done].
  destruct (zeros_eight_lookup _ _ E) as [-> Hin].
  simpl. intros [= <-]. split; [lia|done].
Qed.

(** Every total of a session is a sum of non-negative contributions, and a
    session accumulator holds the eight traits and nothing else, in partial
    mode on any list of entries and in final mode on any list of text
    answers. *)
Theorem session_totals_nonnegative :
  (forall answers, exists mbti sc,
      calculate_partial_mbti answers = Ok (mbti, sc)
      /\ forall t, match sc !! t with
                   | Some v => 0 <= v /\ In t (chars "EISNTFJP")
                   | None => ~ In t (chars "EISNTFJP")
                   end)
  /\ (forall texts, exists mbti sc conf,
        run_analysis (map PyStr texts) = Ok (mbti, sc, conf)
        /\ forall t, match sc !! t with
                     | Some v => 0 <= v /\ In t (chars "EISNTFJP")
                     | None => ~ In t (chars "EISNTFJP")
                     end).
Proof.
  assert (H : forall dim_of answers t,
             match session_scores dim_of answers !! t with
             | Some v => 0 <= v /\ In t (chars "EISNTFJP")
             | None => ~ In t (chars "EISNTFJP")
             end).
  { intros dim_of answers t.
    destruct (session_scores dim_of answers !! t) as [v|] eqn:E.
    - destruct (session_scores_lookup _ _ _ _ E) as [-> Hin].
      split; [apply session_delta_nonneg|done].
    - intros Hin.
      destruct (full_session_scores dim_of answers t Hin) as [v Hv].
      congruence. }
  split.
  - intros answers. eexists _, _. split; [apply calculate_partial_mbti_spec|].
    apply H.
  - intros texts. eexists _, _, _. split; [apply run_analysis_text|].
    apply H.
Qed.

(** An entry changes no total outside the dimension of its position, in
    either mode. *)
Theorem entry_leaves_other_dimensions (dim t1 t2 : string) (k : nat)
    (i : Z) (d : gmap string Z) (t : string) :
  In (dim, t1, t2, k) dimension_table -> full d -> t <> t1 -> t <> t2 ->
  (get_dimension_for_question i = dim ->
   forall ans, exists d',
     calculate_partial_mbti_body d (i, ans) = Ok d' /\ d' !! t = d !! t)
  /\ (Shadowed.get_dimension_for_question i = dim ->
      forall s, exists d',
        run_analysis_body d (i, PyStr s) = Ok d' /\ d' !! t = d !! t).
Proof.
  intros Hin Hd H1 H2.
  assert (Hb : forall delta, delta t = 0 -> bump delta d !! t = d !! t).
  { intros delta H0. rewrite lookup_bump, H0.
    destruct (d !! t); simpl; [f_equal; lia|done]. }
  split.
  - intros <- ans. eexists. split.
    + by apply calculate_partial_mbti_body_spec.
    + apply Hb. unfold entry_delta. cbn [fst snd].
      destruct ans; [|done]. by apply (contribution_other_trait _ _ _ _ _ _ Hin).
  - intros <- s. eexists. split.
    + by apply run_analysis_body_text.
    + apply Hb. by apply (contribution_other_trait _ _ _ _ _ _ Hin).
Qed.

Lemma entry_leaves_other_dimensions_witness :
  exists d',
    run_analysis_body (zeros (chars "EISNTFJP")) (4, PyStr first_I_keyword)
      = Ok d'
    /\ d' !! "I" = zeros (chars "EISNTFJP") !! "I".
Proof.
  apply (entry_leaves_other_dimensions "SN" "S" "N" 1%nat 4
           (zeros (chars "EISNTFJP")) "I").
  - simpl; tauto.
  - apply full_zeros.
  - discriminate.
  - discriminate.
  - reflexivity.
Defined.

(** ** Shape of a single-answer result *)

(** For each of the four dimensions the result of [analyze_single_answer]
    holds exactly the two traits of the dimension, both non-negative; its
    side is one of them and its score is the larger of the two totals. *)
Theorem analyze_single_answer_result (dim t1 t2 : string) (k : nat)
    (answer : str) :
  In (dim, t1, t2, k) dimension_table ->
  exists r,
    analyze_single_answer answer dim = Ok r
    /\ (forall t, is_Some (scores r !! t) <-> t = t1 \/ t = t2)
    /\ 0 <= get0 (scores r) t1 /\ 0 <= get0 (scores r) t2
    /\ (side r = t1 \/ side r = t2)
    /\ score r = get0 (scores r) (side r)
    /\ score r = Z.max (get0 (scores r) t1) (get0 (scores r) t2).
Proof.
  intros Hin. eexists. split; [apply (analyze_single_answer_spec _ _ _ _ _ Hin)|].
  cbv zeta. cbn [scores side score].
  destruct (zeros_pair _ _ _ _ Hin) as [Hz1 Hz2].
  destruct (chars_dimension _ _ _ _ Hin) as [_ Hne].
  set (sc := bump (contribution answer dim) (zeros [t1; t2])).
  assert (G1 : get0 sc t1 = contribution answer dim t1).
  { subst sc. rewrite get0_bump by (by eexists). unfold get0.
    rewrite Hz1. lia. }
  assert (G2 : get0 sc t2 = contribution answer dim t2).
  { subst sc. rewrite get0_bump by (by eexists). unfold get0.
    rewrite Hz2. lia. }
  pose proof (contribution_nonneg answer dim t1).
  pose proof (contribution_nonneg answer dim t2).
  split; [|split; [lia|split; [lia|]]].
  - intros t. subst sc. rewrite bump_is_Some. split.
    + intros [v Hv]. unfold zeros in Hv. simpl in Hv.
      destruct (decide (t = t2)) as [->|N2]; [tauto|].
      destruct (decide (t = t1)) as [->|N1]; [tauto|].
      rewrite !lookup_insert_ne, lookup_empty in Hv by done. done.
    + intros [->| ->]; [rewrite Hz1|rewrite Hz2]; by eexists.
  - destruct (Z.geb_spec (get0 sc t1) (get0 sc t2)); repeat split;
      try tauto; lia.
Qed.

Lemma analyze_single_answer_result_witness :
  exists r,
    analyze_single_answer first_I_keyword "EI" = Ok r
    /\ score r = Z.max (get0 (scores r) "E") (get0 (scores r) "I").
Proof.
  destruct (analyze_single_answer_result "EI" "E" "I" 0%nat first_I_keyword
              ltac:(simpl; tauto)) as (r & Hr & _ & _ & _ & _ & _ & Hs).
  exists r. by split.
Defined.

(** ** A session adds up single-answer results *)

(** In either mode, a text answer at a position of dimension [dim] adds to
    each of the two traits of [dim] exactly the total that
    [analyze_single_answer] reports for the answer in [dim]. *)
Theorem session_adds_single_answer_scores (dim t1 t2 : string) (k : nat)
    (i : Z) (d : gmap string Z) (s : str) :
  In (dim, t1, t2, k) dimension_table -> full d ->
  exists r,
    analyze_single_answer s dim = Ok r
    /\ (get_dimension_for_question i = dim ->
        exists d', calculate_partial_mbti_body d (i, PyStr s) = Ok d'
                   /\ get0 d' t1 = get0 d t1 + get0 (scores r) t1
                   /\ get0 d' t2 = get0 d t2 + get0 (scores r) t2)
    /\ (Shadowed.get_dimension_for_question i = dim ->
        exists d', run_analysis_body d (i, PyStr s) = Ok d'
                   /\ get0 d' t1 = get0 d t1 + get0 (scores r) t1
                   /\ get0 d' t2 = get0 d t2 + get0 (scores r) t2).
Proof.
  intros Hin Hd.
  eexists. split; [apply (analyze_single_answer_spec _ _ _ _ _ Hin)|].
  cbv zeta. cbn [scores].
  destruct (zeros_pair _ _ _ _ Hin) as [Hz1 Hz2].
  destruct (full_dimension _ _ _ _ _ Hin Hd) as [H1 H2].
  assert (G1 : get0 (bump (contribution s dim) (zeros [t1; t2])) t1
               = contribution s dim t1).
  { rewrite get0_bump by (by eexists). unfold get0. rewrite Hz1. lia. }
  assert (G2 : get0 (bump (contribution s dim) (zeros [t1; t2])) t2
               = contribution s dim t2).
  { rewrite get0_bump by (by eexists). unfold get0. rewrite Hz2. lia. }
  rewrite G1, G2. split.
  - intros <-. eexists. split; [by apply calculate_partial_mbti_body_spec|].
    unfold entry_delta. cbn [fst snd]. by rewrite !get0_bump.
  - intros <-. eexists. split; [by apply run_analysis_body_text|].
    by rewrite !get0_bump.
Qed.

Lemma session_adds_single_answer_scores_witness :
  exists r,
    analyze_single_answer first_I_keyword "EI" = Ok r
    /\ exists d',
         run_analysis_body (zeros (chars "EISNTFJP")) (1, PyStr first_I_keyword)
           = Ok d'
         /\ get0 d' "I"
            = get0 (zeros (chars "EISNTFJP")) "I" + get0 (scores r) "I".
Proof.
  destruct (session_adds_single_answer_scores "EI" "E" "I" 0%nat 1
              (zeros (chars "EISNTFJP")) first_I_keyword
              ltac:(simpl; tauto) full_zeros) as (r & Hr & _ & Hf).
  exists r. split; [exact Hr|].
  destruct (Hf eq_refl) as (d' & Hd' & _ & H2). exists d'. by split.
Defined.

(** ** Dimension tags outside the four *)

Lemma assoc_DICTIONARY_None dim :
  assoc dim DICTIONARY = None ->
  String.eqb dim "EI" = false /\ String.eqb dim "SN" = false
  /\ String.eqb dim "TF" = false /\ String.eqb dim "JP" = false.
Proof.
  unfold DICTIONARY. cbn [assoc].
  rewrite !(String.eqb_sym dim).
  destruct (String.eqb "EI" dim); [done|].
  destruct (String.eqb "SN" dim); [done|].
  destruct (String.eqb "TF" dim); [done|].
  destruct (String.eqb "JP" dim); done.
Qed.

Lemma apply_style_correction_unknown ans dim (d : gmap string Z) :
  String.eqb dim "EI" = false -> String.eqb dim "SN" = false ->
  String.eqb dim "TF" = false -> String.eqb dim "JP" = false ->
  apply_style_correction ans dim d = Ok d.
Proof.
  intros H1 H2 H3 H4. unfold apply_style_correction.
  by rewrite H1, H2, H3, H4.
Qed.

Lemma chars_length (s : string) : length (chars s) = String.length s.
Proof.
  unfold chars. rewrite length_map. induction s; simpl; congruence.
Qed.

(** On a tag of ASCII characters [analyze_single_answer] raises exactly when
    the tag is not two characters long, and then it is the [ValueError] of
    unpacking the tag into two traits; every two-character ASCII tag, one of
    the four dimensions or not, gets a result. *)
Theorem analyze_single_answer_raises (answer : str) (dimension : string) :
  Forall (fun c => (Ascii.N_of_ascii c < 128)%N)
    (String.list_ascii_of_string dimension) ->
  if (String.length dimension =? 2)%nat
  then exists r, analyze_single_answer answer dimension = Ok r
  else analyze_single_answer answer dimension = Raise ValueError.
Proof.
  intros _.
  destruct (assoc dimension DICTIONARY) as [table|] eqn:Hd.
  - destruct (assoc_DICTIONARY_inv _ _ Hd)
      as (t1 & t2 & k & k1 & k2 & Hin & _).
    assert (String.length dimension = 2%nat) as ->
      by (by each_dimension Hin).
    eexists. apply (analyze_single_answer_spec _ _ _ _ _ Hin).
  - destruct (assoc_DICTIONARY_None _ Hd) as (H1 & H2 & H3 & H4).
    unfold analyze_single_answer. rewrite Hd. cbn [bind].
    unfold heuristics. rewrite H2, H3, H4. cbn [bind snd fst negb].
    rewrite apply_style_correction_unknown by done. cbn [bind].
    rewrite <- chars_length.
    destruct (chars dimension) as [|a [|b [|c l]]]; simpl; eauto.
Qed.

Lemma analyze_single_answer_raises_witness :
  analyze_single_answer neutral_answer "SNT" = Raise ValueError.
Proof.
  apply (analyze_single_answer_raises neutral_answer "SNT").
  repeat constructor.
Defined.

(** ** Partial mode stops at the twelfth entry *)

Lemma enumerate_from_app {A : Type} (i : Z) (l1 l2 : list A) :
  enumerate_from i (l1 ++ l2)
  = (enumerate_from i l1 ++ enumerate_from (i + Z.of_nat (length l1)) l2)%list.
Proof.
  revert i. induction l1 as [|x l1 IH]; intros i; simpl.
  - f_equal. lia.
  - rewrite IH. do 3 f_equal. lia.
Qed.

Lemma session_delta_app dim_of (l1 l2 : list (Z * pyobj)) t :
  session_delta dim_of (l1 ++ l2) t
  = session_delta dim_of l1 t + session_delta dim_of l2 t.
Proof.
  unfold session_delta. induction l1 as [|e l1 IH]; simpl; lia.
Qed.

Lemma session_delta_late (i : Z) (l : list pyobj) t :
  12 <= i ->
  session_delta get_dimension_for_question (enumerate_from i l) t = 0.
Proof.
  revert i. unfold session_delta.
  induction l as [|a l IH]; intros i Hi; simpl; [done|].
  rewrite IH by lia. unfold entry_delta. cbn [fst snd].
  assert (get_dimension_for_question i = "") as ->.
  { unfold get_dimension_for_question.
    destruct (Z.ltb_spec i 3); [lia|]. destruct (Z.ltb_spec i 6); [lia|].
    destruct (Z.ltb_spec i 9); [lia|]. destruct (Z.ltb_spec i 12); [lia|].
    done. }
  destruct a; [by rewrite contribution_no_dimension|done].
Qed.

(** Entries after the twelfth change nothing in partial mode: totals and
    label are those of the first twelve entries. *)
Theorem calculate_partial_mbti_first_twelve (answers : list pyobj) :
  calculate_partial_mbti answers = calculate_partial_mbti (take 12 answers).
Proof.
  rewrite !calculate_partial_mbti_spec. cbv zeta.
  assert (Hsc : session_scores get_dimension_for_question answers
                = session_scores get_dimension_for_question
                    (take 12 answers)).
  { unfold session_scores. apply bump_ext. intros t.
    rewrite <- (take_drop 12 answers) at 1. unfold enumerate.
    rewrite enumerate_from_app, session_delta_app.
    destruct (Nat.le_gt_cases 12 (length answers)) as [Hlen|Hlen].
    - rewrite (session_delta_late (0 + Z.of_nat (length (take 12 answers))));
        [lia|]. rewrite length_take. lia.
    - rewrite drop_ge by lia. unfold session_delta at 2. simpl. lia. }
  rewrite <- Hsc. rewrite length_take.
  set (n := length answers).
  assert (Hthr : forall thr, thr <= 12 ->
             (thr <=? Z.of_nat (12 `min` n)) = (thr <=? Z.of_nat n)).
  { intros thr Hthr. destruct (Z.leb_spec thr (Z.of_nat n));
      [apply Z.leb_le|apply Z.leb_gt]; lia. }
  by rewrite !Hthr by lia.
Qed.

(** ** The two modes on a complete session *)

Lemma dimension_before_twelve (i : Z) :
  i < 12 ->
  Shadowed.get_dimension_for_question i = get_dimension_for_question i.
Proof.
  intros Hi.
  unfold Shadowed.get_dimension_for_question, get_dimension_for_question.
  destruct (i <? 3), (i <? 6), (i <? 9); try done.
  by destruct (Z.ltb_spec i 12); [|lia].
Qed.

Lemma session_delta_before_twelve (i : Z) (l : list pyobj) t :
  i + Z.of_nat (length l) <= 12 ->
  session_delta Shadowed.get_dimension_for_question (enumerate_from i l) t
  = session_delta get_dimension_for_question (enumerate_from i l) t.
Proof.
  revert i. unfold session_delta.
  induction l as [|a l IH]; intros i Hi; simpl in *; [done|].
  rewrite IH by lia. f_equal. unfold entry_delta. cbn [fst snd].
  by rewrite dimension_before_twelve by lia.
Qed.

(** On at most twelve text answers the two modes compute the same totals,
    and on exactly twelve also the same label. *)
Theorem modes_agree_up_to_twelve (texts : list str) :
  (length texts <= 12)%nat ->
  exists mbti mbti' sc conf,
    run_analysis (map PyStr texts) = Ok (mbti, sc, conf)
    /\ calculate_partial_mbti (map PyStr texts) = Ok (mbti', sc)
    /\ (length texts = 12%nat -> mbti' = mbti).
Proof.
  intros Hlen. eexists _, _, _, _. split; [apply run_analysis_text|].
  cbv zeta. rewrite calculate_partial_mbti_spec. cbv zeta.
  assert (Hsc : session_scores get_dimension_for_question (map PyStr texts)
                = session_scores Shadowed.get_dimension_for_question
                    (map PyStr texts)).
  { unfold session_scores, enumerate. apply bump_ext. intros t.
    symmetry. apply session_delta_before_twelve.
    rewrite length_map. lia. }
  rewrite Hsc. split; [reflexivity|].
  intros H12. rewrite length_map, H12. reflexivity.
Qed.

Lemma modes_agree_up_to_twelve_witness :
  exists mbti mbti' sc conf,
    run_analysis (map PyStr (repeat first_I_keyword 12)) = Ok (mbti, sc, conf)
    /\ calculate_partial_mbti (map PyStr (repeat first_I_keyword 12))
       = Ok (mbti', sc)
    /\ mbti' = mbti.
Proof.
  destruct (modes_agree_up_to_twelve (repeat first_I_keyword 12)
              ltac:(simpl; lia)) as (m & m' & sc & conf & H1 & H2 & H3).
  exists m, m', sc, conf. split; [exact H1|]. split; [exact H2|].
  apply H3. reflexivity.
Defined.

(** ** The style corrector *)

(** On an accumulator that holds the eight traits the style corrector
    returns for every answer and tag; it keeps the keys, lowers no total and
    raises a total by at most 1, that of F by at most 2. *)
Theorem apply_style_correction_bounded (ans : str) (dim : string)
    (d : gmap string Z) :
  full d ->
  exists d',
    apply_style_correction ans dim d = Ok d'
    /\ forall t, (is_Some (d' !! t) <-> is_Some (d !! t))
                 /\ get0 d t <= get0 d' t <= get0 d t + style_cap t.
Proof.
  intros Hd.
  assert (Hb : forall delta t,
             (forall j, 0 <= delta j <= style_cap j) ->
             (is_Some (bump delta d !! t) <-> is_Some (d !! t))
             /\ get0 d t <= get0 (bump delta d) t <= get0 d t + style_cap t).
  { intros delta t Hdelta. split; [apply bump_is_Some|].
    unfold get0. rewrite lookup_bump. specialize (Hdelta t).
    pose proof (style_cap_pos t).
    destruct (d !! t); simpl; lia. }
  destruct (assoc dim DICTIONARY) as [table|] eqn:Hdim.
  - destruct (assoc_DICTIONARY_inv _ _ Hdim)
      as (t1 & t2 & k & k1 & k2 & Hin & _).
    destruct (full_dimension _ _ _ _ _ Hin Hd) as [H1 H2].
    eexists. split; [by apply (apply_style_correction_spec _ _ _ _ _ _ Hin)|].
    intros t. apply Hb. intros j. apply style_delta_cap.
  - destruct (assoc_DICTIONARY_None _ Hdim) as (H1 & H2 & H3 & H4).
    exists d. split; [by apply apply_style_correction_unknown|].
    intros t. pose proof (style_cap_pos t). split; [done|lia].
Qed.

Lemma apply_style_correction_bounded_witness :
  exists d',
    apply_style_correction (py "!!!") "TF" (zeros (chars "EISNTFJP")) = Ok d'
    /\ get0 d' "F" <= get0 (zeros (chars "EISNTFJP")) "F" + style_cap "F".
Proof.
  destruct (apply_style_correction_bounded (py "!!!") "TF"
              (zeros (chars "EISNTFJP")) full_zeros) as (d' & Hd' & H).
  exists d'. split; [exact Hd'|]. apply (H "F").
Defined.

(** ** Final mode on text and on [None] *)

Lemma all_text (answers : list pyobj) :
  forallb isinstance_str answers = true ->
  exists texts, answers = map PyStr texts.
Proof.
  induction answers as [|a answers IH]; simpl; [by exists []|].
  intros [Ha H]%andb_true_iff. destruct (IH H) as (texts & ->).
  destruct a as [s|]; [|done]. by exists (s :: texts).
Qed.

Lemma some_non_text (answers : list pyobj) :
  forallb isinstance_str answers = false -> In PyNone answers.
Proof.
  induction answers as [|a answers IH]; simpl; [done|].
  destruct a as [s|]; simpl; [|by left]. intros H. right. by apply IH.
Qed.

Lemma no_None_all_text (answers : list pyobj) :
  existsb (fun ans => match ans with PyNone => true | PyStr _ => false end)
    answers = negb (forallb isinstance_str answers).
Proof.
  induction answers as [|a answers IH]; simpl; [done|].
  rewrite IH. by destruct a.
Qed.

(** On a list whose entries are text or [None], [run_analysis] returns a
    result exactly when no entry is [None]; when one is, it raises
    [TypeError]. *)
Theorem run_analysis_returns_iff_no_None (answers : list pyobj) :
  if existsb (fun ans => match ans with PyNone => true | PyStr _ => false end)
       answers
  then run_analysis answers = Raise TypeError
  else exists r, run_analysis answers = Ok r.
Proof.
  rewrite no_None_all_text.
  destruct (forallb isinstance_str answers) eqn:E; cbn [negb].
  - destruct (all_text _ E) as (texts & ->). eexists.
    apply run_analysis_text.
  - by apply run_analysis_non_text, some_non_text.
Qed.

(** ** Totals of a session of at most twelve answers *)

Lemma keyword_weight_total present keywords :
  Forall (fun k : str * Z => 0 <= snd k) keywords ->
  keyword_weight present keywords <= weights_total keywords.
Proof.
  unfold keyword_weight, weights_total.
  induction 1 as [|[word w] keywords Hw _ IH]; simpl in *; [lia|].
  destruct (present word); lia.
Qed.

Lemma dimension_cap_values :
  dimension_cap "EI" = 243 /\ dimension_cap "SN" = 313
  /\ dimension_cap "TF" = 522 /\ dimension_cap "JP" = 348.
Proof. repeat split; vm_compute; reflexivity. Qed.

Lemma heuristic_pair_cap found dim t1 t2 k :
  In (dim, t1, t2, k) dimension_table ->
  heuristic_delta found dim t1 + heuristic_delta found dim t2
  <= foldr Z.add 0
       (map (fun rule : string * string * list str * Z =>
               let '(d, _, _, w) := rule in
               if String.eqb d dim then w else 0) heuristic_rules).
Proof.
  intros Hin. unfold heuristic_delta, heuristic_rules, rule_fires.
  each_dimension Hin; simpl; eqb_lit; simpl;
    repeat match goal with
      | |- context [found ?p] => destruct (found p)
      end; simpl; lia.
Qed.

Lemma contribution_pair_cap dim t1 t2 k ans :
  In (dim, t1, t2, k) dimension_table ->
  contribution ans dim t1 + contribution ans dim t2 <= dimension_cap dim.
Proof.
  intros Hin.
  destruct (DICTIONARY_rows _ _ _ _ Hin) as (k1 & k2 & Hrows).
  destruct (chars_dimension _ _ _ _ Hin) as [_ Hne].
  pose proof (dictionary_nonneg _ _ Hrows) as Hnn.
  apply Forall_cons in Hnn as [Hn1 Hnn]. apply Forall_cons in Hnn as [Hn2 _].
  cbn [snd] in Hn1, Hn2.
  pose proof (keyword_weight_total (fun w => str_in w ans) k1 Hn1) as W1.
  pose proof (keyword_weight_total (fun w => str_in w ans) k2 Hn2) as W2.
  pose proof (keyword_weight_mono (fun w => str_in w ans)
                (fun w => str_in w ans) (fun _ H => H) k1 Hn1) as P1.
  pose proof (keyword_weight_mono (fun w => str_in w ans)
                (fun w => str_in w ans) (fun _ H => H) k2 Hn2) as P2.
  pose proof (heuristic_pair_cap (fun p => re_search p ans) _ _ _ _ Hin)
    as Hh.
  pose proof (heuristic_mono (fun p => re_search p ans)
                (fun p => re_search p ans) dim t1 (fun _ H => H)) as [Hh1 _].
  pose proof (heuristic_mono (fun p => re_search p ans)
                (fun p => re_search p ans) dim t2 (fun _ H => H)) as [Hh2 _].
  pose proof (style_delta_cap ans dim t1) as S1.
  pose proof (style_delta_cap ans dim t2) as S2.
  assert (Hcap2 : style_cap t1 + style_cap t2 <= 3)
    by (by each_dimension Hin).
  assert (L1 : lexicon_delta (fun w => str_in w ans) [(t1, k1); (t2, k2)] t1
               = keyword_weight (fun w => str_in w ans) k1).
  { unfold lexicon_delta. simpl. rewrite String.eqb_refl.
    apply not_eq_sym, String.eqb_neq in Hne. rewrite Hne. lia. }
  assert (L2 : lexicon_delta (fun w => str_in w ans) [(t1, k1); (t2, k2)] t2
               = keyword_weight (fun w => str_in w ans) k2).
  { unfold lexicon_delta. simpl. rewrite String.eqb_refl.
    apply String.eqb_neq in Hne. rewrite Hne. lia. }
  assert (Hc : dimension_cap dim
               = weights_total k1 + weights_total k2
                 + foldr Z.add 0
                     (map (fun rule : string * string * list str * Z =>
                             let '(d, _, _, w) := rule in
                             if String.eqb d dim then w else 0)
                        heuristic_rules)).
  { unfold dimension_cap. rewrite Hrows. simpl foldr at 1. cbn [snd]. lia. }
  assert (Hbig : 3 <= dimension_cap dim).
  { destruct dimension_cap_values as (V1 & V2 & V3 & V4).
    each_dimension Hin; lia. }
  unfold contribution, match_delta. rewrite Hrows, L1, L2.
  destruct (match_count ans dim =? 0)%nat; lia.
Qed.

Lemma dimension_traits_apart dim t1 t2 k dim' t1' t2' k' :
  In (dim, t1, t2, k) dimension_table ->
  In (dim', t1', t2', k') dimension_table ->
  dim' <> dim -> t1 <> t1' /\ t1 <> t2' /\ t2 <> t1' /\ t2 <> t2'.
Proof.
  intros Hin Hin' Hne.
  each_dimension Hin; each_dimension Hin'; repeat split; congruence.
Qed.

Lemma final_session_pair_cap dim t1 t2 k (texts : list str) (i : Z) :
  In (dim, t1, t2, k) dimension_table ->
  session_delta Shadowed.get_dimension_for_question
    (enumerate_from i (map PyStr texts)) t1
  + session_delta Shadowed.get_dimension_for_question
      (enumerate_from i (map PyStr texts)) t2
  <= session_cap Shadowed.get_dimension_for_question dim i (length texts).
Proof.
  intros Hin. revert i. unfold session_delta.
  induction texts as [|s texts IH]; intros i; simpl; [lia|].
  specialize (IH (i + 1)). unfold entry_delta at 1 3. cbn [fst snd].
  destruct (final_dimension i) as (t1' & t2' & k' & Hin').
  destruct (String.eqb_spec (Shadowed.get_dimension_for_question i) dim)
    as [E|E].
  - rewrite E. pose proof (contribution_pair_cap _ _ _ _ s Hin). lia.
  - destruct (dimension_traits_apart _ _ _ _ _ _ _ _ Hin Hin' E)
      as (N1 & N2 & N3 & N4).
    rewrite (contribution_other_trait _ _ _ _ s t1 Hin') by done.
    rewrite (contribution_other_trait _ _ _ _ s t2 Hin') by done. lia.
Qed.

Lemma session_cap_twelve dim t1 t2 k (n : nat) :
  In (dim, t1, t2, k) dimension_table -> (n <= 12)%nat ->
  session_cap Shadowed.get_dimension_for_question dim 0 n
  <= 3 * dimension_cap dim.
Proof.
  intros Hin Hn.
  assert (Hcheck : forallb (fun m =>
            forallb (fun row : string * string * string * nat =>
                       session_cap Shadowed.get_dimension_for_question
                         (fst (fst (fst row))) 0 m
                       <=? 3 * dimension_cap (fst (fst (fst row))))
              dimension_table) (seq 0 13) = true)
    by (vm_compute; reflexivity).
  rewrite forallb_forall in Hcheck.
  specialize (Hcheck n ltac:(apply in_seq; lia)).
  rewrite forallb_forall in Hcheck. specialize (Hcheck _ Hin).
  cbn [fst] in Hcheck. lia.
Qed.

Lemma get_conf_zero_iff (a b : Z) :
  0 <= a -> 0 <= b ->
  (get_conf a b == 0)%Q <-> 20000 * Z.abs (a - b) < 10 * (a + b) + 1.
Proof.
  intros Ha Hb. rewrite get_conf_tenths by done.
  pose proof (round_half_even_frac_zero (10000 * Z.abs (a - b))
                (10 * (a + b) + 1) ltac:(lia) ltac:(lia)) as Hz.
  unfold Qeq. cbn [Qnum Qden]. lia.
Qed.

(** ** Final mode: confidence of a session *)

Lemma round_half_even_frac_nearest (p q : Z) :
  0 <= p -> 0 < q -> Z.odd q = true ->
  2 * Z.abs (p - round_half_even_frac p q * q) < q.
Proof.
  intros Hp Hq Hodd. unfold round_half_even_frac. cbv zeta.
  pose proof (Z.div_mod p q ltac:(lia)) as Hdm.
  pose proof (Z.mod_pos_bound p q Hq) as Hm.
  set (f := p / q) in *.
  destruct (Z.compare_spec (2 * (p - f * q)) q) as [E|L|G].
  - exfalso. rewrite <- E in Hodd. rewrite Z.odd_mul in Hodd. done.
  - lia.
  - lia.
Qed.

Lemma get_conf_nearest_tenth (a b : Z) :
  0 <= a -> 0 <= b -> a + b <= 1566 ->
  exists n : Z,
    get_conf a b = n # 10
    /\ (Qabs (inject_Z (Z.abs (a - b)) / (inject_Z (a + b) + (1 # 10)) * 100
              - (n # 10)) <= (1 # 20) - (1 # 313220))%Q.
Proof.
  intros Ha Hb Hab. rewrite get_conf_tenths by done.
  set (d := Z.abs (a - b)). set (s := a + b).
  assert (Hd : 0 <= d) by (subst d; lia).
  assert (Hs : 0 <= s) by (subst s; lia).
  pose proof (round_half_even_frac_nearest (10000 * d) (10 * s + 1)
                ltac:(lia) ltac:(lia)) as Hn.
  set (n := round_half_even_frac (10000 * d) (10 * s + 1)) in *.
  assert (Hodd : Z.odd (10 * s + 1) = true).
  { rewrite Z.add_comm, Z.odd_add_mul_even; [done|]. by exists 5. }
  specialize (Hn Hodd).
  exists n. split; [reflexivity|].
  assert (E : (inject_Z d / (inject_Z s + (1 # 10)) * 100 - (n # 10)
               == (10000 * d - n * (10 * s + 1)) # (10 * Z.to_pos (10 * s + 1)))%Q).
  { rewrite (Qmake_Qdiv (10000 * d - n * (10 * s + 1))).
    rewrite (Qmake_Qdiv n).
    rewrite Pos2Z.inj_mul, Z2Pos.id by lia.
    unfold Zminus.
    repeat (rewrite inject_Z_plus || rewrite inject_Z_mult
            || rewrite inject_Z_opp).
    field. split.
    - unfold Qeq, Qplus, Qmult, inject_Z. simpl. lia.
    - unfold Qeq, Qplus, Qmult, inject_Z. simpl. lia. }
  rewrite E. unfold Qabs, Qle, Qminus, Qplus, Qopp. cbn [Qnum Qden].
  rewrite !Pos2Z.inj_mul, Z2Pos.id by lia. subst s. lia.
Qed.

Lemma get_conf_winner_loser (a b w l : Z) :
  0 <= l <= w -> w + l <= 1566 ->
  (a = w /\ b = l) \/ (a = l /\ b = w) ->
  exists n : Z,
    Some (get_conf a b) = Some (n # 10)
    /\ (Qabs (inject_Z (w - l) / (inject_Z (w + l) + (1 # 10)) * 100
              - (n # 10)) <= (1 # 20) - (1 # 313220))%Q.
Proof.
  intros Hwl Hsum Hab.
  destruct (get_conf_nearest_tenth w l ltac:(lia) ltac:(lia) Hsum)
    as (n & Hn & Hx).
  rewrite Z.abs_eq in Hx by lia.
  exists n. split; [|exact Hx]. f_equal. rewrite <- Hn.
  destruct Hab as [[-> ->]|[-> ->]]; [reflexivity|apply get_conf_sym].
Qed.

Lemma final_session_totals dim t1 t2 k (texts : list str) :
  In (dim, t1, t2, k) dimension_table -> (length texts <= 12)%nat ->
  let sc := session_scores Shadowed.get_dimension_for_question
              (map PyStr texts) in
  0 <= get0 sc t1 /\ 0 <= get0 sc t2 /\ get0 sc t1 + get0 sc t2 <= 1566.
Proof.
  intros Hin Hlen sc.
  destruct (full_dimension _ _ _ _ _ Hin full_zeros) as [[z1 Hz1] [z2 Hz2]].
  destruct (zeros_eight_lookup _ _ Hz1) as [-> _].
  destruct (zeros_eight_lookup _ _ Hz2) as [-> _].
  assert (G1 : get0 sc t1
               = session_delta Shadowed.get_dimension_for_question
                   (enumerate (map PyStr texts)) t1).
  { subst sc. unfold session_scores. rewrite get0_bump by (by eexists).
    unfold get0. rewrite Hz1. lia. }
  assert (G2 : get0 sc t2
               = session_delta Shadowed.get_dimension_for_question
                   (enumerate (map PyStr texts)) t2).
  { subst sc. unfold session_scores. rewrite get0_bump by (by eexists).
    unfold get0. rewrite Hz2. lia. }
  pose proof (session_delta_nonneg Shadowed.get_dimension_for_question
                (enumerate (map PyStr texts)) t1) as P1.
  pose proof (session_delta_nonneg Shadowed.get_dimension_for_question
                (enumerate (map PyStr texts)) t2) as P2.
  pose proof (final_session_pair_cap _ _ _ _ texts 0 Hin) as Hsum.
  pose proof (session_cap_twelve _ _ _ _ (length texts) Hin Hlen) as Hcap.
  fold (enumerate (map PyStr texts)) in Hsum.
  rewrite <- G1, <- G2 in *.
  assert (Hdim : dimension_cap dim <= 522).
  { destruct dimension_cap_values as (V1 & V2 & V3 & V4).
    each_dimension Hin; lia. }
  lia.
Qed.


Lemma letter_of_label (c1 c2 c3 c4 : string) :
  String.length c1 = 1%nat -> String.length c2 = 1%nat ->
  String.length c3 = 1%nat -> String.length c4 = 1%nat ->
  let mbti := String.append c1 (String.append c2 (String.append c3 c4)) in
  letter 0 mbti = c1 /\ letter 1 mbti = c2
  /\ letter 2 mbti = c3 /\ letter 3 mbti = c4.
Proof.
  destruct c1 as [|a1 [|? ?]]; try done.
  destruct c2 as [|a2 [|? ?]]; try done.
  destruct c3 as [|a3 [|? ?]]; try done.
  destruct c4 as [|a4 [|? ?]]; try done.
Qed.

Lemma winner_length dim t1 t2 k (sc : gmap string Z) :
  In (dim, t1, t2, k) dimension_table ->
  String.length (winner t1 t2 sc) = 1%nat.
Proof.
  intros Hin. unfold winner.
  destruct (get0 sc t1 >=? get0 sc t2); by each_dimension Hin.
Qed.

Lemma winner_confidence dim t1 t2 k (sc : gmap string Z) :
  In (dim, t1, t2, k) dimension_table ->
  0 <= get0 sc t1 -> 0 <= get0 sc t2 -> get0 sc t1 + get0 sc t2 <= 1566 ->
  let w := winner t1 t2 sc in
  let l := if String.eqb w t1 then t2 else t1 in
  (w = t1 \/ w = t2)
  /\ 0 <= get0 sc l <= get0 sc w
  /\ get0 sc w + get0 sc l = get0 sc t1 + get0 sc t2
  /\ exists n : Z,
       Some (get_conf (get0 sc t1) (get0 sc t2)) = Some (n # 10)
       /\ (Qabs (inject_Z (get0 sc w - get0 sc l)
                 / (inject_Z (get0 sc w + get0 sc l) + (1 # 10)) * 100
                 - (n # 10)) <= (1 # 20) - (1 # 313220))%Q.
Proof.
  intros Hin H1 H2 Hsum. cbv zeta. unfold winner.
  destruct (chars_dimension _ _ _ _ Hin) as [_ Hne].
  destruct (Z.geb_spec (get0 sc t1) (get0 sc t2)) as [G|G].
  - rewrite String.eqb_refl.
    split; [by left|]. split; [lia|]. split; [lia|].
    apply get_conf_winner_loser; [lia|lia|]. by left.
  - apply not_eq_sym, String.eqb_neq in Hne. rewrite Hne.
    split; [by right|]. split; [lia|]. split; [lia|].
    apply get_conf_winner_loser; [lia|lia|]. by right.
Qed.

(** C5. On a session of at most twelve text answers, a complete one in
    particular, [run_analysis] returns, and for each of the four dimensions
    the letter of the label is one of the two traits, its total [w] is the
    larger of the two, and the confidence reported for the dimension is a
    number of tenths [n / 10] that differs from
    [(w - l) / (w + l + 0.1) * 100], where [l] is the other total of the
    dimension, by at most [1/20 - 1/313220]. It is therefore the tenth
    nearest to the quotient, which is what rounding to one decimal place
    gives, computed from these two totals alone. The two totals sum to at
    most 1566, and the quotient stays at least [1/313220] away from the
    midpoint between two tenths. *)
Theorem final_confidence (texts : list str) :
  (length texts <= 12)%nat ->
  exists mbti sc conf,
    run_analysis (map PyStr texts) = Ok (mbti, sc, conf)
    /\ Forall (fun row : string * string * string * nat =>
         let '(dim, t1, t2, k) := row in
         let w := letter k mbti in
         let l := if String.eqb w t1 then t2 else t1 in
         (w = t1 \/ w = t2)
         /\ 0 <= get0 sc l <= get0 sc w
         /\ get0 sc w + get0 sc l <= 1566
         /\ exists n : Z,
              conf !! dim = Some (n # 10)
              /\ (Qabs (inject_Z (get0 sc w - get0 sc l)
                        / (inject_Z (get0 sc w + get0 sc l) + (1 # 10)) * 100
                        - (n # 10)) <= (1 # 20) - (1 # 313220))%Q)
       dimension_table.
Proof.
  intros Hlen. eexists _, _, _. split; [apply run_analysis_text|].
  cbv zeta.
  assert (Hrow : forall dim t1 t2 k,
            In (dim, t1, t2, k) dimension_table ->
            let sc := session_scores Shadowed.get_dimension_for_question
                        (map PyStr texts) in
            let w := winner t1 t2 sc in
            let l := if String.eqb w t1 then t2 else t1 in
            (w = t1 \/ w = t2)
            /\ 0 <= get0 sc l <= get0 sc w
            /\ get0 sc w + get0 sc l <= 1566
            /\ exists n : Z,
                 Some (get_conf (get0 sc t1) (get0 sc t2)) = Some (n # 10)
                 /\ (Qabs (inject_Z (get0 sc w - get0 sc l)
                           / (inject_Z (get0 sc w + get0 sc l) + (1 # 10))
                           * 100 - (n # 10))
                     <= (1 # 20) - (1 # 313220))%Q).
  { intros dim t1 t2 k Hin. cbv zeta.
    destruct (final_session_totals _ _ _ _ texts Hin Hlen) as (P1 & P2 & Hs).
    destruct (winner_confidence _ _ _ _ _ Hin P1 P2 Hs) as (A & B & C & D).
    repeat split; try tauto; lia. }
  set (sc := session_scores _ _) in *.
  destruct (confidence_lookup (get_conf (get0 sc "E") (get0 sc "I"))
              (get_conf (get0 sc "S") (get0 sc "N"))
              (get_conf (get0 sc "T") (get0 sc "F"))
              (get_conf (get0 sc "J") (get0 sc "P")))
    as (C1 & C2 & C3 & C4).
  cbv zeta in C1, C2, C3, C4.
  destruct (letter_of_label (winner "E" "I" sc) (winner "S" "N" sc)
              (winner "T" "F" sc) (winner "J" "P" sc))
    as (L1 & L2 & L3 & L4).
  1-4: eapply winner_length; simpl; eauto 6.
  cbv zeta in L1, L2, L3, L4.
  unfold dimension_table. rewrite !Forall_cons, Forall_nil.
  rewrite C1, C2, C3, C4, L1, L2, L3, L4.
  split; [|split; [|split; [|split; [|exact I]]]].
  - apply (Hrow "EI" "E" "I" 0%nat). simpl; auto.
  - apply (Hrow "SN" "S" "N" 1%nat). simpl; auto.
  - apply (Hrow "TF" "T" "F" 2%nat). simpl; auto.
  - apply (Hrow "JP" "J" "P" 3%nat). simpl; auto 6.
Qed.

Lemma final_confidence_witness :
  exists mbti sc conf,
    run_analysis (map PyStr (repeat neutral_answer 12)) = Ok (mbti, sc, conf)
    /\ exists n : Z, conf !! "EI" = Some (n # 10).
Proof.
  destruct (final_confidence (repeat neutral_answer 12)
              ltac:(simpl; lia)) as (mbti & sc & conf & Hr & Hall).
  exists mbti, sc, conf. split; [exact Hr|].
  unfold dimension_table in Hall. rewrite !Forall_cons in Hall.
  destruct Hall as ((_ & _ & _ & n & Hn & _) & _).
  by exists n.
Defined.

(** In final mode on at most twelve text answers the two totals of a
    dimension sum to at most three times what one answer can add to them
    (729, 939, 1566 and 1044 for EI, SN, TF and JP), and the confidence of a
    dimension is 0 exactly when its two totals are equal. *)
Theorem session_confidence_zero_iff_tie (texts : list str) :
  (length texts <= 12)%nat ->
  exists mbti sc conf,
    run_analysis (map PyStr texts) = Ok (mbti, sc, conf)
    /\ Forall (fun row : string * string * string * nat =>
         let '(dim, t1, t2, k) := row in
         get0 sc t1 + get0 sc t2 <= 3 * dimension_cap dim
         /\ exists c, conf !! dim = Some c
                      /\ ((c == 0)%Q <-> get0 sc t1 = get0 sc t2))
       dimension_table.
Proof.
  intros Hlen. eexists _, _, _. split; [apply run_analysis_text|].
  cbv zeta. set (sc := session_scores _ _).
  destruct (confidence_lookup (get_conf (get0 sc "E") (get0 sc "I"))
              (get_conf (get0 sc "S") (get0 sc "N"))
              (get_conf (get0 sc "T") (get0 sc "F"))
              (get_conf (get0 sc "J") (get0 sc "P")))
    as (C1 & C2 & C3 & C4).
  cbv zeta in C1, C2, C3, C4.
  assert (Hrow : forall dim t1 t2 k,
             In (dim, t1, t2, k) dimension_table ->
             0 <= get0 sc t1 /\ 0 <= get0 sc t2
             /\ get0 sc t1 + get0 sc t2 <= 3 * dimension_cap dim
             /\ ((get_conf (get0 sc t1) (get0 sc t2) == 0)%Q
                 <-> get0 sc t1 = get0 sc t2)).
  { intros dim t1 t2 k Hin.
    destruct (full_dimension _ _ _ _ _ Hin full_zeros) as [[z1 Hz1] [z2 Hz2]].
    destruct (zeros_eight_lookup _ _ Hz1) as [-> _].
    destruct (zeros_eight_lookup _ _ Hz2) as [-> _].
    assert (G1 : get0 sc t1
                 = session_delta Shadowed.get_dimension_for_question
                     (enumerate (map PyStr texts)) t1).
    { subst sc. unfold session_scores. rewrite get0_bump by (by eexists).
      unfold get0. rewrite Hz1. lia. }
    assert (G2 : get0 sc t2
                 = session_delta Shadowed.get_dimension_for_question
                     (enumerate (map PyStr texts)) t2).
    { subst sc. unfold session_scores. rewrite get0_bump by (by eexists).
      unfold get0. rewrite Hz2. lia. }
    pose proof (session_delta_nonneg Shadowed.get_dimension_for_question
                  (enumerate (map PyStr texts)) t1) as P1.
    pose proof (session_delta_nonneg Shadowed.get_dimension_for_question
                  (enumerate (map PyStr texts)) t2) as P2.
    pose proof (final_session_pair_cap _ _ _ _ texts 0 Hin) as Hsum.
    pose proof (session_cap_twelve _ _ _ _ (length texts) Hin Hlen) as Hcap.
    fold (enumerate (map PyStr texts)) in Hsum.
    rewrite <- G1, <- G2 in *.
    assert (Hdim : dimension_cap dim <= 522).
    { destruct dimension_cap_values as (V1 & V2 & V3 & V4).
      each_dimension Hin; lia. }
    pose proof (get_conf_zero_iff (get0 sc t1) (get0 sc t2) P1 P2) as Hz.
    repeat split; try lia.
    - intros H0. apply Hz in H0. lia.
    - intros E. apply Hz. rewrite E. lia. }
  unfold dimension_table. rewrite !Forall_cons, Forall_nil.
  repeat split.
  all: try (eapply Hrow; simpl; eauto 6; fail).
  - exists (get_conf (get0 sc "E") (get0 sc "I")). split; [exact C1|].
    eapply Hrow; simpl; eauto 6.
  - exists (get_conf (get0 sc "S") (get0 sc "N")). split; [exact C2|].
    eapply Hrow; simpl; eauto 6.
  - exists (get_conf (get0 sc "T") (get0 sc "F")). split; [exact C3|].
    eapply Hrow; simpl; eauto 6.
  - exists (get_conf (get0 sc "J") (get0 sc "P")). split; [exact C4|].
    eapply Hrow; simpl; eauto 6.
Qed.

Lemma session_confidence_zero_iff_tie_witness :
  exists mbti sc conf,
    run_analysis (map PyStr (repeat neutral_answer 12)) = Ok (mbti, sc, conf)
    /\ get0 sc "T" + get0 sc "F" <= 3 * dimension_cap "TF".
Proof.
  destruct (session_confidence_zero_iff_tie (repeat neutral_answer 12)
              ltac:(simpl; lia)) as (mbti & sc & conf & Hr & Hall).
  exists mbti, sc, conf. split; [exact Hr|].
  unfold dimension_table in Hall. rewrite !Forall_cons in Hall.
  destruct Hall as (_ & _ & (H & _) & _). exact H.
Defined.

(** ** Confidence as a function of the two totals *)




(** ** Order of the answers of one dimension *)

Lemma session_delta_swap dim_of (i : Z) (before after : list pyobj)
    (a b : pyobj) (t : string) :
  dim_of (i + Z.of_nat (length before))
  = dim_of (i + Z.of_nat (length before) + 1) ->
  session_delta dim_of (enumerate_from i (before ++ a :: b :: after)) t
  = session_delta dim_of (enumerate_from i (before ++ b :: a :: after)) t.
Proof.
  intros Hdim. rewrite !enumerate_from_app, !session_delta_app. f_equal.
  cbn [enumerate_from]. unfold session_delta. cbn [map foldr].
  unfold entry_delta. cbn [fst snd]. rewrite Hdim. lia.
Qed.

(** Two neighbouring answers whose positions belong to the same dimension
    can be exchanged without changing the result, in final mode on text
    answers and in partial mode on any entries. *)
Theorem neighbours_of_one_dimension_commute (before after : list str)
    (a b : str) (entries_before entries_after : list pyobj) (x y : pyobj) :
  Shadowed.get_dimension_for_question (Z.of_nat (length before))
  = Shadowed.get_dimension_for_question (Z.of_nat (length before) + 1) ->
  get_dimension_for_question (Z.of_nat (length entries_before))
  = get_dimension_for_question (Z.of_nat (length entries_before) + 1) ->
  run_analysis (map PyStr (before ++ a :: b :: after))
  = run_analysis (map PyStr (before ++ b :: a :: after))
  /\ calculate_partial_mbti (entries_before ++ x :: y :: entries_after)
     = calculate_partial_mbti (entries_before ++ y :: x :: entries_after).
Proof.
  intros Hf Hp. split.
  - rewrite !run_analysis_text. cbv zeta.
    assert (Hsc : session_scores Shadowed.get_dimension_for_question
                    (map PyStr (before ++ a :: b :: after))
                  = session_scores Shadowed.get_dimension_for_question
                      (map PyStr (before ++ b :: a :: after))).
    { unfold session_scores, enumerate. apply bump_ext. intros t.
      rewrite !map_app. cbn [map]. apply session_delta_swap.
      by rewrite length_map. }
    by rewrite Hsc.
  - rewrite !calculate_partial_mbti_spec. cbv zeta.
    assert (Hsc : session_scores get_dimension_for_question
                    (entries_before ++ x :: y :: entries_after)
                  = session_scores get_dimension_for_question
                      (entries_before ++ y :: x :: entries_after)).
    { unfold session_scores, enumerate. apply bump_ext. intros t.
      by apply session_delta_swap. }
    rewrite Hsc. by rewrite !length_app.
Qed.

Lemma neighbours_of_one_dimension_commute_witness :
  run_analysis (map PyStr ([] ++ first_I_keyword :: neutral_answer :: []))
  = run_analysis (map PyStr ([] ++ neutral_answer :: first_I_keyword :: [])).
Proof.
  apply (neighbours_of_one_dimension_commute [] [] first_I_keyword
           neutral_answer [] [] PyNone PyNone); reflexivity.
Defined.

(** * Properties of the chat relay *)

Section ChatRelay.

Context {value uid id : Type}.
Variables (truthy : value -> bool) (same : value -> uid -> bool).

Import ChatWebsocket.

Implicit Types (trace t : list (event value id))
  (frames : list (frame value)).

Lemma saved_app t1 t2 :
  saved (t1 ++ t2)%list = (saved t1 ++ saved t2)%list.
Proof.
  induction t1 as [|e t1 IH]; [done|]. destruct e; simpl; by rewrite ?IH.
Qed.

Lemma broadcast_app t1 t2 :
  broadcast (t1 ++ t2)%list = (broadcast t1 ++ broadcast t2)%list.
Proof.
  induction t1 as [|e t1 IH]; [done|]. destruct e; simpl; by rewrite ?IH.
Qed.

Lemma registered_app t1 t2 :
  registered (t1 ++ t2)%list = (registered t1 ++ registered t2)%list.
Proof.
  induction t1 as [|e t1 IH]; [done|]. destruct e; simpl; by rewrite ?IH.
Qed.

Lemma chatting_app t1 t2 :
  chatting (t1 ++ t2)%list = (chatting t1 ++ chatting t2)%list.
Proof.
  induction t1 as [|e t1 IH]; [done|]. destruct e; simpl; by rewrite ?IH.
Qed.

(** Unfolding of one iteration on a message. *)
Ltac loop_step frames IH :=
  let trace := fresh "trace" in
  let out := fresh "out" in
  let E := fresh "E" in
  match goal with
  | |- context [receive_loop truthy same ?u1 ?u2 ?g ?du ?c ?n frames] =>
      specialize (IH c n);
      destruct (receive_loop truthy same u1 u2 g du c n frames) as [trace out] eqn:E
  end.

Lemma loop_messages (user1_id user2_id : uid) (uuid4 : nat -> id)
    (disconnected_user_id : value) frames :
  forall connected_user_id generated,
    let trace :=
      fst (receive_loop truthy same user1_id user2_id uuid4 disconnected_user_id
             connected_user_id generated frames) in
    broadcast trace = saved trace
    /\ Forall (accepted truthy same user1_id user2_id) (saved trace)
    /\ map (fun m => fst (fst m)) (saved trace)
       = map uuid4 (seq generated (length (saved trace))).
Proof.
  induction frames as [|f frames IH]; intros connected generated;
    [by repeat split|].
  destruct f as [sender_id content| |]; cbn [receive_loop].
  - destruct (truthy sender_id) eqn:Hs, (truthy content) eqn:Hc;
      cbn [negb orb];
      try (loop_step frames IH; cbn [fst] in *; exact IH).
    destruct (same sender_id user1_id || same sender_id user2_id) eqn:Hp;
      cbn [negb];
      [|loop_step frames IH; cbn [fst] in *; exact IH].
    match goal with
    | |- context [receive_loop truthy same ?u1 ?u2 ?g ?du ?c ?n frames] =>
        specialize (IH c n);
        destruct (receive_loop truthy same u1 u2 g du c n frames) as [trace out]
    end.
    cbn [fst] in *. destruct IH as (IH1 & IH2 & IH3).
    rewrite saved_app, broadcast_app.
    assert (Hreg : forall reg : list (event value id),
               reg = (match connected with
                      | None => Register sender_id
                                  :: _set_user_chatting truthy sender_id
                      | Some _ => []
                      end) ->
               saved (Receive :: reg) = []
               /\ broadcast (Receive :: reg) = []).
    { intros reg ->. unfold _set_user_chatting.
      rewrite Hs. by destruct connected. }
    destruct (Hreg _ eq_refl) as [-> ->]. cbn.
    repeat split.
    + by rewrite IH1.
    + apply Forall_cons. split; [by repeat split|done].
    + by rewrite IH3.
  - by repeat split.
  - cbn [fst]. unfold _clear_user_state.
    by destruct (truthy disconnected_user_id); repeat split.
Qed.

(** Only validated messages of participants are saved and relayed: every
    saved message has a non-empty sender and content and a sender that is
    one of the two participants of the room; the messages broadcast are the
    messages saved, in the same order; the identifiers are those that
    [uuid4] generated, each used once and in order; and when the room does
    not exist nothing is saved or broadcast. *)
Theorem relayed_messages_are_validated (chat_room : option (uid * uid))
    (uuid4 : nat -> id) (disconnected_user_id : value)
    frames :
  let trace :=
    fst (websocket_endpoint truthy same chat_room uuid4 disconnected_user_id frames) in
  broadcast trace = saved trace
  /\ map (fun m => fst (fst m)) (saved trace)
     = map uuid4 (seq 0 (length (saved trace)))
  /\ match chat_room with
     | Some (user1_id, user2_id) =>
         Forall (accepted truthy same user1_id user2_id) (saved trace)
     | None => saved trace = []
     end.
Proof.
  unfold websocket_endpoint.
  destruct chat_room as [[user1_id user2_id]|]; [|by repeat split].
  pose proof (loop_messages user1_id user2_id uuid4 disconnected_user_id
                frames None 0%nat) as H.
  destruct (receive_loop truthy same user1_id user2_id uuid4 disconnected_user_id None
              0%nat frames) as [trace out].
  cbn [fst] in *. cbn. tauto.
Qed.

Lemma loop_registration (user1_id user2_id : uid) (uuid4 : nat -> id)
    (disconnected_user_id : value) frames :
  forall connected_user_id generated,
    let trace :=
      fst (receive_loop truthy same user1_id user2_id uuid4 disconnected_user_id
             connected_user_id generated frames) in
    chatting trace = registered trace
    /\ registered trace =
         match connected_user_id, saved trace with
         | None, m :: _ => [snd (fst m)]
         | _, _ => []
         end.
Proof.
  induction frames as [|f frames IH]; intros connected generated.
  { cbn. by destruct connected. }
  destruct f as [sender_id content| |]; cbn [receive_loop].
  - destruct (truthy sender_id) eqn:Hs, (truthy content) eqn:Hc;
      cbn [negb orb];
      try (loop_step frames IH; cbn [fst] in *; exact IH).
    destruct (same sender_id user1_id || same sender_id user2_id) eqn:Hp;
      cbn [negb];
      [|loop_step frames IH; cbn [fst] in *; exact IH].
    match goal with
    | |- context [receive_loop truthy same ?u1 ?u2 ?g ?du ?c ?n frames] =>
        specialize (IH c n);
        destruct (receive_loop truthy same u1 u2 g du c n frames) as [trace out]
    end.
    cbn [fst] in *. destruct IH as (IH1 & IH2).
    rewrite saved_app, registered_app, chatting_app.
    unfold _set_user_chatting. rewrite Hs.
    destruct connected as [user|]; cbn; rewrite IH1, IH2; by split.
  - cbn. by destruct connected.
  - cbn [fst]. unfold _clear_user_state.
    destruct (truthy disconnected_user_id), connected; by split.
Qed.

(** A connection registers at most one user, the sender of the first saved
    message, and sets the match state of exactly that user to chatting. *)
Theorem one_user_registered (chat_room : option (uid * uid))
    (uuid4 : nat -> id) (disconnected_user_id : value)
    frames :
  let trace :=
    fst (websocket_endpoint truthy same chat_room uuid4 disconnected_user_id frames) in
  chatting trace = registered trace
  /\ registered trace =
       match saved trace with
       | m :: _ => [snd (fst m)]
       | [] => []
       end.
Proof.
  unfold websocket_endpoint.
  destruct chat_room as [[user1_id user2_id]|]; [|by split].
  pose proof (loop_registration user1_id user2_id uuid4 disconnected_user_id
                frames None 0%nat) as H.
  destruct (receive_loop truthy same user1_id user2_id uuid4 disconnected_user_id None
              0%nat frames) as [trace out].
  cbn [fst] in *. cbn. exact H.
Qed.

Lemma loop_sessions (user1_id user2_id : uid) (uuid4 : nat -> id)
    (disconnected_user_id : value) frames :
  forall connected_user_id generated,
    sessions_closed false
      (fst (receive_loop truthy same user1_id user2_id uuid4 disconnected_user_id
              connected_user_id generated frames)) = true.
Proof.
  induction frames as [|f frames IH]; intros connected generated; [done|].
  destruct f as [sender_id content| |]; cbn [receive_loop].
  - destruct (truthy sender_id) eqn:Hs, (truthy content) eqn:Hc;
      cbn [negb orb];
      try (loop_step frames IH; cbn [fst] in *; exact IH).
    destruct (same sender_id user1_id || same sender_id user2_id) eqn:Hp;
      cbn [negb];
      [|loop_step frames IH; cbn [fst] in *; exact IH].
    match goal with
    | |- context [receive_loop truthy same ?u1 ?u2 ?g ?du ?c ?n frames] =>
        specialize (IH c n);
        destruct (receive_loop truthy same u1 u2 g du c n frames) as [trace out]
    end.
    cbn [fst] in *. unfold _set_user_chatting. rewrite Hs.
    destruct connected; cbn; exact IH.
  - done.
  - cbn [fst]. unfold _clear_user_state.
    by destruct (truthy disconnected_user_id).
Qed.

(** Every database session the endpoint opens is closed again before the
    next one is opened and before the endpoint returns, raises or waits for
    the next frame. *)
Theorem database_sessions_closed (chat_room : option (uid * uid))
    (uuid4 : nat -> id) (disconnected_user_id : value)
    frames :
  sessions_closed false
    (fst (websocket_endpoint truthy same chat_room uuid4 disconnected_user_id frames))
  = true.
Proof.
  unfold websocket_endpoint.
  destruct chat_room as [[user1_id user2_id]|]; [|done].
  pose proof (loop_sessions user1_id user2_id uuid4 disconnected_user_id
                frames None 0%nat) as H.
  destruct (receive_loop truthy same user1_id user2_id uuid4 disconnected_user_id None
              0%nat frames) as [trace out].
  cbn [fst] in *. cbn. exact H.
Qed.

Lemma loop_cleanup (user1_id user2_id : uid) (uuid4 : nat -> id)
    (disconnected_user_id : value) frames :
  forall connected_user_id generated,
    let run :=
      receive_loop truthy same user1_id user2_id uuid4 disconnected_user_id
        connected_user_id generated frames in
    List.filter is_cleanup (fst run) =
      match snd run with
      | Returned =>
          Disconnect
            :: (if truthy disconnected_user_id
                then [ClearState disconnected_user_id]
                else [])
      | _ => []
      end.
Proof.
  induction frames as [|f frames IH]; intros connected generated; [done|].
  destruct f as [sender_id content| |]; cbn [receive_loop].
  - destruct (truthy sender_id) eqn:Hs, (truthy content) eqn:Hc;
      cbn [negb orb];
      try (loop_step frames IH; cbn [fst snd] in *; exact IH).
    destruct (same sender_id user1_id || same sender_id user2_id) eqn:Hp;
      cbn [negb];
      [|loop_step frames IH; cbn [fst snd] in *; exact IH].
    match goal with
    | |- context [receive_loop truthy same ?u1 ?u2 ?g ?du ?c ?n frames] =>
        specialize (IH c n);
        destruct (receive_loop truthy same u1 u2 g du c n frames) as [trace out]
    end.
    cbn [fst snd] in *. unfold _set_user_chatting.
    rewrite Hs. destruct connected; cbn; exact IH.
  - done.
  - cbn [fst snd]. unfold _clear_user_state.
    by destruct (truthy disconnected_user_id).
Qed.

(** The endpoint cleans up only when the connection ends by
    [WebSocketDisconnect]: then it calls [manager.disconnect] once, last,
    and clears the match state of the user that call returns when there is
    one. When a frame does not parse the exception leaves the endpoint and
    neither call is made; nor are they made when the room does not exist. *)
Theorem cleanup_only_on_disconnect (chat_room : option (uid * uid))
    (uuid4 : nat -> id) (disconnected_user_id : value)
    frames :
  let run := websocket_endpoint truthy same chat_room uuid4 disconnected_user_id frames in
  List.filter is_cleanup (fst run) =
    match chat_room, snd run with
    | Some _, Returned =>
        Disconnect
          :: (if truthy disconnected_user_id
              then [ClearState disconnected_user_id]
              else [])
    | _, _ => []
    end.
Proof.
  unfold websocket_endpoint.
  destruct chat_room as [[user1_id user2_id]|]; [|done].
  pose proof (loop_cleanup user1_id user2_id uuid4 disconnected_user_id
                frames None 0%nat) as H.
  destruct (receive_loop truthy same user1_id user2_id uuid4 disconnected_user_id None
              0%nat frames) as [trace out].
  cbn [fst snd] in *. cbn. exact H.
Qed.

End ChatRelay.

(** * Further properties of the scoring engine, continued *)

(** ** Non-text entries in partial mode *)

(** In partial mode a list with a non-text entry is scored as if the entry
    were not there, except that the entries after it keep the dimensions of
    their own positions. *)
Theorem partial_mode_non_text_entry (before after : list pyobj) :
  exists mbti sc,
    calculate_partial_mbti (before ++ PyNone :: after) = Ok (mbti, sc)
    /\ forall t,
         In t (chars "EISNTFJP") ->
         get0 sc t
         = session_delta get_dimension_for_question (enumerate before) t
           + session_delta get_dimension_for_question
               (enumerate_from (Z.of_nat (length before) + 1) after) t.
Proof.
  eexists _, _. split; [apply calculate_partial_mbti_spec|].
  cbv zeta. intros t Ht. unfold session_scores.
  destruct (full_zeros t Ht) as [z Hz].
  destruct (zeros_eight_lookup _ _ Hz) as [-> _].
  rewrite get0_bump by (by eexists). unfold get0. rewrite Hz.
  rewrite non_text_entry_keeps_position. lia.
Qed.

(** ** Answers past the twelfth in final mode *)

Lemma analyze_single_answer_totals dim t1 t2 k (s : str) :
  In (dim, t1, t2, k) dimension_table ->
  exists r,
    analyze_single_answer s dim = Ok r
    /\ get0 (scores r) t1 = contribution s dim t1
    /\ get0 (scores r) t2 = contribution s dim t2.
Proof.
  intros Hin. eexists. split; [apply (analyze_single_answer_spec _ _ _ _ _ Hin)|].
  cbv zeta. cbn [scores].
  destruct (zeros_pair _ _ _ _ Hin) as [Hz1 Hz2].
  rewrite !get0_bump by (by eexists). unfold get0. rewrite Hz1, Hz2. lia.
Qed.

(** [run_analysis] has no end of the questionnaire: an answer at any index
    from 9 on, the thirteenth and later ones included, is scored as an
    answer to a JP question. *)
Theorem run_analysis_scores_late_answers_as_JP (i : Z) (d : gmap string Z)
    (s : str) :
  9 <= i -> full d ->
  exists r d',
    analyze_single_answer s "JP" = Ok r
    /\ run_analysis_body d (i, PyStr s) = Ok d'
    /\ get0 d' "J" = get0 d "J" + get0 (scores r) "J"
    /\ get0 d' "P" = get0 d "P" + get0 (scores r) "P".
Proof.
  intros Hi Hd.
  destruct (analyze_single_answer_totals "JP" "J" "P" 3%nat s
              ltac:(simpl; tauto)) as (r & Hr & HJ & HP).
  exists r. eexists. split; [exact Hr|].
  split; [by apply run_analysis_body_text|].
  rewrite (shadowed_get_dimension_for_question_from_9 i Hi), HJ, HP.
  rewrite !get0_bump by (apply Hd; simpl; tauto). done.
Qed.

Lemma run_analysis_scores_late_answers_as_JP_witness :
  exists r d',
    analyze_single_answer (py "!!!") "JP" = Ok r
    /\ run_analysis_body (zeros (chars "EISNTFJP")) (12, PyStr (py "!!!"))
       = Ok d'
    /\ get0 d' "J" = get0 (zeros (chars "EISNTFJP")) "J" + get0 (scores r) "J".
Proof.
  destruct (run_analysis_scores_late_answers_as_JP 12
              (zeros (chars "EISNTFJP")) (py "!!!") ltac:(lia) full_zeros)
    as (r & d' & Hr & Hd' & HJ & _).
  by exists r, d'.
Defined.
